(** * Level-of-evidence labelling (cord19q, [etl/loe.py])

    A shallow embedding of the [LOE] class of [src/python/cord19q/etl/loe.py]
    and of the parts of the Python run time and of the [regex] package that
    the class calls, followed by the properties of the labelling pipeline.

    Conventions of the embedding:
    - a Python [str] is a [string]; characters are the 8-bit [ascii] of the
      Standard Library, and case folding and the word/space classes are the
      ASCII ones (bytes above 127 are caseless, non-word, non-space);
    - a Python [int] is a [Z];
    - a value that may be [None] is an [option];
    - a call that may raise returns a [result]. *)

From Stdlib Require Import ZArith List String Ascii Bool Lia Arith.
From Stdlib Require Import Numbers.DecimalString.
From Stdlib Require Import Sorting.Sorted Sorting.Permutation.
Import ListNotations.

Open Scope string_scope.
Open Scope Z_scope.

(* ===================================================================== *)
(** * Python values and built-ins *)
(* ===================================================================== *)

Module Py.

(** The exceptions that the modelled calls can raise. *)
Inductive exn : Type :=
| TypeError    (* str.join over an item that is not a str *)
| ValueError   (* max() of an empty sequence *)
| ReError.     (* regex.error: the pattern does not compile *)

Inductive result (A : Type) : Type :=
| Ok (a : A)
| Raise (e : exn).

Arguments Ok {A} a.
Arguments Raise {A} e.

Definition bind {A B : Type} (m : result A) (f : A -> result B) : result B :=
  match m with
  | Ok a => f a
  | Raise e => Raise e
  end.

(** Truth value of a [str]: the empty string is false. *)
Definition truthy (s : string) : bool :=
  match s with
  | EmptyString => false
  | String _ _ => true
  end.

(** Truth value of a [str] or [None]. *)
Definition truthy_opt (o : option string) : bool :=
  match o with
  | None => false
  | Some s => truthy s
  end.

(** Truth value of an [int]. *)
Definition truthy_int (n : Z) : bool := negb (n =? 0).

(** Truth value of a tuple: a tuple is false only when it has no
    component, so every pair is true. *)
Definition truthy_pair {A B : Type} (p : A * B) : bool := true.

(** Truth value of a list. *)
Definition truthy_list {A : Type} (l : list A) : bool :=
  match l with
  | [] => false
  | _ :: _ => true
  end.

Definition between (lo c hi : ascii) : bool :=
  ((nat_of_ascii lo <=? nat_of_ascii c) && (nat_of_ascii c <=? nat_of_ascii hi))%nat.

Definition is_upper (c : ascii) : bool := between "A" c "Z".
Definition is_lower (c : ascii) : bool := between "a" c "z".
Definition is_digit (c : ascii) : bool := between "0" c "9".
Definition is_alnum (c : ascii) : bool := is_upper c || is_lower c || is_digit c.

(** [c.isspace()]: tab, line feed, vertical tab, form feed, carriage
    return, the four separators 28..31 and the space. *)
Definition isspace (c : ascii) : bool :=
  between "009" c "013" || between "028" c "031" || (c =? " ")%char.

Definition lower_char (c : ascii) : ascii :=
  if is_upper c then ascii_of_nat (nat_of_ascii c + 32) else c.

Fixpoint map_chars (f : ascii -> ascii) (s : string) : string :=
  match s with
  | EmptyString => EmptyString
  | String c s' => String (f c) (map_chars f s')
  end.

(** [s.lower()] *)
Definition lower (s : string) : string := map_chars lower_char s.

Definition newline : ascii := "010".

(** [s.replace("\n", " ")] *)
Definition replace_newlines (s : string) : string :=
  map_chars (fun c => if (c =? newline)%char then " "%char else c) s.

(** [sep.join(items)] where every item is a [str]. *)
Definition join (sep : string) (items : list string) : string :=
  String.concat sep items.

(** The items of a list that may hold [None], when none does. *)
Fixpoint all_str (items : list (option string)) : option (list string) :=
  match items with
  | [] => Some []
  | None :: _ => None
  | Some s :: rest =>
      match all_str rest with
      | Some l => Some (s :: l)
      | None => None
      end
  end.

(** [sep.join(items)] over items that may be [None]: join raises
    TypeError at the first item that is not a [str]. *)
Definition join_opt (sep : string) (items : list (option string)) : result string :=
  match all_str items with
  | Some l => Ok (join sep l)
  | None => Raise TypeError
  end.

(** [token in s] on strings: [token] occurs in [s] at some offset. *)
Fixpoint contains (token s : string) : bool :=
  String.prefix token s ||
  match s with
  | EmptyString => false
  | String _ s' => contains token s'
  end.

(** ["%d" % n] *)
Definition format_int (n : Z) : string := NilZero.string_of_int (Z.to_int n).

(** [len(l)] *)
Definition len {A : Type} (l : list A) : Z := Z.of_nat (List.length l).

(** [max(l)] on a list of ints; raises ValueError on the empty list. *)
Definition max (l : list Z) : result Z :=
  match l with
  | [] => Raise ValueError
  | x :: rest => Ok (fold_left Z.max rest x)
  end.

(** [l.index(x)]: offset of the first item equal to [x].  The second
    argument of [index_from] is the offset of the head of the list. *)
Fixpoint index_from (x : Z) (i : Z) (l : list Z) : result Z :=
  match l with
  | [] => Raise ValueError
  | y :: rest => if y =? x then Ok i else index_from x (i + 1) rest
  end.

Definition index (l : list Z) (x : Z) : result Z := index_from x 0 l.

(** [l[i]] for an offset [0 <= i < len(l)]; IndexError is not modelled
    apart, an offset out of range is reported as a ValueError. *)
Definition getitem {A : Type} (l : list A) (i : Z) : result A :=
  if i <? 0 then Raise ValueError
  else match nth_error l (Z.to_nat i) with
       | Some a => Ok a
       | None => Raise ValueError
       end.

(** [collections.Counter(items).items()]: the distinct items in the order
    of their first occurrence, each with its number of occurrences. *)
Fixpoint count_key (key : string) (counts : list (string * Z)) : list (string * Z) :=
  match counts with
  | [] => [(key, 1)]
  | (k, n) :: rest =>
      if (k =? key)%string then (k, n + 1) :: rest
      else (k, n) :: count_key key rest
  end.

Definition Counter (items : list string) : list (string * Z) :=
  fold_left (fun counts key => count_key key counts) items [].

(** [sorted(pairs, key=lambda x: x[1], reverse=True)]: the sort is stable,
    also under reverse, so pairs with equal counts keep their order. *)
Fixpoint insert_desc (x : string * Z) (l : list (string * Z)) : list (string * Z) :=
  match l with
  | [] => [x]
  | y :: rest =>
      if snd y <=? snd x then x :: y :: rest
      else y :: insert_desc x rest
  end.

Definition sorted_by_count_desc (l : list (string * Z)) : list (string * Z) :=
  fold_right insert_desc [] l.

End Py.

Export Py (result, Ok, Raise, exn, TypeError, ValueError, ReError).

Notation "x <- m ;; k" := (Py.bind m (fun x => k))
  (at level 61, m at next level, right associativity).
Notation "' pat <- m ;; k" := (Py.bind m (fun x => match x with pat => k end))
  (at level 61, pat pattern, m at next level, right associativity).

(* ===================================================================== *)
(** * The [regex] package: patterns, compilation and search *)
(* ===================================================================== *)

(** The module is imported as [re] by [loe.py].  Patterns are strings; the
    model compiles the part of the pattern language that [loe.py] writes
    (literal characters, escapes, [\b], [.], a greedy [?], a lazy [*?],
    alternation and one negative look-behind group) and runs the compiled
    pattern as a backtracking matcher that prefers the leftmost
    alternative, as the package does. *)

Module Re.

(** ** Escaping *)

(** The characters [regex.escape] puts a backslash before, besides white
    space (its [_METACHARS]). *)
Definition METACHARS : string := "()[]{}?*+|^$\.-#&~".

Fixpoint char_in (c : ascii) (s : string) : bool :=
  match s with
  | EmptyString => false
  | String d s' => (c =? d)%char || char_in c s'
  end.

Definition escape_char (c : ascii) : string :=
  if char_in c METACHARS || Py.isspace c
  then String "\" (String c EmptyString)
  else String c EmptyString.

(** [regex.escape(s)] with its default arguments: only the special
    characters and white space are escaped. *)
Fixpoint escape (s : string) : string :=
  match s with
  | EmptyString => EmptyString
  | String c s' => escape_char c ++ escape s'
  end.

(** ** Compiled patterns *)

Inductive atom : Type :=
| Chr (c : ascii)      (* this character *)
| AnyChar.             (* [.]: any character but a line feed *)

Inductive item : Type :=
| One (a : atom)       (* a          *)
| Maybe (a : atom)     (* a?  greedy *)
| Lazy (a : atom)      (* a*? lazy   *)
| WordB.               (* \b         *)

Inductive node : Type :=
| Plain (i : item)
| NotBehind (alts : list (list item)).   (* (?<! alt | alt ... ) *)

(** A pattern is a list of alternatives, tried from left to right. *)
Definition pattern : Type := list (list node).

(** ** Compilation *)

Definition as_item (n : node) : option item :=
  match n with
  | Plain i => Some i
  | NotBehind _ => None
  end.

Fixpoint as_items (ns : list node) : option (list item) :=
  match ns with
  | [] => Some []
  | n :: rest =>
      match as_item n, as_items rest with
      | Some i, Some l => Some (i :: l)
      | _, _ => None
      end
  end.

Fixpoint as_alts (p : list (list node)) : option (list (list item)) :=
  match p with
  | [] => Some []
  | ns :: rest =>
      match as_items ns, as_alts rest with
      | Some l, Some ls => Some (l :: ls)
      | _, _ => None
      end
  end.

(** The alternatives read so far, the last one being [cur]; both are kept
    in reverse. *)
Definition close_alts (cur : list node) (done : list (list node)) : pattern :=
  rev (rev cur :: done).

(** [parse s cur done outer] reads the pattern text [s] from left to
    right.  [cur] is the alternative being read and [done] the finished
    ones; inside a look-behind group [outer] holds the [cur] and [done] of
    the enclosing pattern.  [None] stands for a pattern outside the
    modelled part of the language or one the package rejects. *)
Fixpoint parse (s : string) (cur : list node) (done : list (list node))
    (outer : option (list node * list (list node))) : option pattern :=
  match s with
  | EmptyString =>
      match outer with
      | None => Some (close_alts cur done)
      | Some _ => None
      end
  | String c s' =>
      if (c =? "|")%char then parse s' [] (rev cur :: done) outer
      else if (c =? "\")%char then
        match s' with
        | String d s'' =>
            if (d =? "b")%char then parse s'' (Plain WordB :: cur) done outer
            else if Py.is_alnum d then None
            else parse s'' (Plain (One (Chr d)) :: cur) done outer
        | EmptyString => None
        end
      else if (c =? ".")%char then parse s' (Plain (One AnyChar) :: cur) done outer
      else if (c =? "?")%char then
        match cur with
        | Plain (One a) :: cur' => parse s' (Plain (Maybe a) :: cur') done outer
        | _ => None
        end
      else if (c =? "*")%char then
        match s', cur with
        | String "?" s'', Plain (One a) :: cur' =>
            parse s'' (Plain (Lazy a) :: cur') done outer
        | _, _ => None
        end
      else if (c =? "(")%char then
        match s', outer with
        | String "?" (String "<" (String "!" s'')), None =>
            parse s'' [] [] (Some (cur, done))
        | _, _ => None
        end
      else if (c =? ")")%char then
        match outer with
        | Some (ocur, odone) =>
            match as_alts (close_alts cur done) with
            | Some alts => parse s' (NotBehind alts :: ocur) odone None
            | None => None
            end
        | None => None
        end
      else if char_in c "[]{}+^$" then None
      else parse s' (Plain (One (Chr c)) :: cur) done outer
  end.

Definition compile (pat : string) : option pattern := parse pat [] [] None.

(** ** Matching *)

(** A position in the searched text: the text before it, nearest
    character first, and the text after it. *)
Record cursor : Type := Cursor { behind : string; ahead : string }.

Definition is_word (c : ascii) : bool := Py.is_alnum c || (c =? "_")%char.

Definition word_at (s : string) : bool :=
  match s with
  | EmptyString => false
  | String c _ => is_word c
  end.

(** [\b]: exactly one of the two neighbours is a word character. *)
Definition at_boundary (cur : cursor) : bool :=
  xorb (word_at (behind cur)) (word_at (ahead cur)).

Definition accepts (a : atom) (c : ascii) : bool :=
  match a with
  | Chr d => (c =? d)%char
  | AnyChar => negb (c =? Py.newline)%char
  end.

Definition advance (a : atom) (cur : cursor) : option cursor :=
  match ahead cur with
  | EmptyString => None
  | String c rest =>
      if accepts a c then Some (Cursor (String c (behind cur)) rest) else None
  end.

Definition or_else {A : Type} (x y : option A) : option A :=
  match x with
  | Some _ => x
  | None => y
  end.

Section Run.
Context {A : Type}.

(** [a*?] followed by [k]: first [k] here, then after one more [a]. *)
Fixpoint lazy_loop (a : atom) (k : cursor -> option A)
    (before after : string) : option A :=
  match k (Cursor before after) with
  | Some r => Some r
  | None =>
      match after with
      | EmptyString => None
      | String c rest =>
          if accepts a c then lazy_loop a k (String c before) rest else None
      end
  end.

(** One item followed by the continuation [k]. *)
Definition run_item (i : item) (k : cursor -> option A) (cur : cursor) : option A :=
  match i with
  | One a =>
      match advance a cur with
      | Some cur' => k cur'
      | None => None
      end
  | Maybe a =>
      or_else (match advance a cur with
               | Some cur' => k cur'
               | None => None
               end)
              (k cur)
  | Lazy a => lazy_loop a k (behind cur) (ahead cur)
  | WordB => if at_boundary cur then k cur else None
  end.

Fixpoint run_items (l : list item) (k : cursor -> option A) : cursor -> option A :=
  match l with
  | [] => k
  | i :: rest => run_item i (run_items rest k)
  end.
End Run.

(** Does alternative [alt], started at [cur], have a match that ends where
    [stop] characters remain? *)
Definition ends_at (stop : nat) (alt : list item) (cur : cursor) : bool :=
  match run_items alt
          (fun c => if (String.length (ahead c) =? stop)%nat then Some tt else None)
          cur with
  | Some _ => true
  | None => false
  end.

(** Look-behind: is there a start at or before the position, here given
    as [before]/[after], from which one of [alts] matches up to the
    position where [stop] characters remain? *)
Fixpoint behind_from (alts : list (list item)) (stop : nat)
    (before after : string) : bool :=
  existsb (fun alt => ends_at stop alt (Cursor before after)) alts ||
  match before with
  | EmptyString => false
  | String c before' => behind_from alts stop before' (String c after)
  end.

Definition looks_behind (alts : list (list item)) (cur : cursor) : bool :=
  behind_from alts (String.length (ahead cur)) (behind cur) (ahead cur).

Fixpoint run_nodes {A : Type} (l : list node) (k : cursor -> option A)
    : cursor -> option A :=
  match l with
  | [] => k
  | Plain i :: rest => run_item i (run_nodes rest k)
  | NotBehind alts :: rest =>
      fun cur => if looks_behind alts cur then None else run_nodes rest k cur
  end.

(** The match at [cur]: that of the first alternative that has one. *)
Fixpoint match_at (p : pattern) (cur : cursor) : option cursor :=
  match p with
  | [] => None
  | alt :: rest => or_else (run_nodes alt Some cur) (match_at rest cur)
  end.

(** The text between the start [cur] of a match and its end [cur']. *)
Definition matched (cur cur' : cursor) : string :=
  String.substring 0 (String.length (ahead cur) - String.length (ahead cur')) (ahead cur).

(** Every start position from left to right; a match is reported for
    each position that has one, whatever the previous match covered. *)
Fixpoint scan (p : pattern) (before after : string) : list string :=
  (match match_at p (Cursor before after) with
   | Some cur' => [matched (Cursor before after) cur']
   | None => []
   end) ++
  match after with
  | EmptyString => []
  | String c rest => scan p (String c before) rest
  end.

(** [regex.findall(pat, text, overlapped=True)] for a pattern without
    capture groups: the matched texts. *)
Definition findall_overlapped (pat text : string) : result (list string) :=
  match compile pat with
  | Some p => Ok (scan p EmptyString text)
  | None => Raise ReError
  end.

(** Is there a match that starts at or after the position? *)
Fixpoint found (p : pattern) (before after : string) : bool :=
  (match match_at p (Cursor before after) with
   | Some _ => true
   | None => false
   end) ||
  match after with
  | EmptyString => false
  | String c rest => found p (String c before) rest
  end.

(** Truth value of [regex.search(pat, text)]: a match object is true,
    [None] is false. *)
Definition search (pat text : string) : result bool :=
  match compile pat with
  | Some p => Ok (found p EmptyString text)
  | None => Raise ReError
  end.

End Re.

(* ===================================================================== *)
(** * The vocabulary *)
(* ===================================================================== *)

(** The term lists that [loe.py] reads from the class [Vocab] of
    [vocab.py].  The class is a collaborator of this module; the model
    takes its attributes as a record, and every property below holds for
    every vocabulary. *)
Record Vocab : Type := {
  SYSTEMATIC_REVIEW : list string;
  RANDOMIZED_CONTROL_TRIAL : list string;
  PSEUDO_RANDOMIZED_CONTROL_TRIAL : list string;
  GENERIC_L3 : list string;
  RETROSPECTIVE_COHORT : list string;
  GENERIC_CASE_CONTROL : list string;
  MATCHED_CASE_CONTROL : list string;
  CROSS_SECTIONAL_CASE_CONTROL : list string;
  TIME_SERIES_ANALYSIS : list string;
  PREVALENCE_STUDY : list string;
  COMPUTER_MODEL : list string
}.

(* ===================================================================== *)
(** * [loe.py] *)
(* ===================================================================== *)

(** [regex(terms)]:
    ["|".join([r"\b%s\b" % re.escape(term.lower()) for term in terms])] *)
Definition regex (terms : list string) : string :=
  Py.join "|" (map (fun term => "\b" ++ Re.escape (Py.lower term) ++ "\b") terms).

Module LOE.

(** A section of an article: [(name, text, _)].  The third component is
    never read. *)
Abbreviation section := (option string * option string * option string)%type.

(** A match result [(count, keywords)] and a label [(level, keywords)]. *)
Abbreviation scored := (Z * option string)%type.

(** [TITLE_REGEX] *)
Definition TITLE_REGEX : list (string * Z) :=
  [(regex ["systematic review"; "meta-analysis"], 1); (regex ["randomized control"], 2);
   (regex ["pseudo-randomized"], 3); (regex ["retrospective cohort"], 4);
   (regex ["matched case"], 5); ("\bcross\-?sectional\b", 6);
   ("\btime\-?series\b", 7); (regex ["prevalence"], 8)].

(** The pattern of [LOE.filter]. *)
Definition FILTER_REGEX : string :=
  "introduction|(?<!.*?results.*?)discussion|background|reference".

(** The pattern of the last stage of [LOE.label]. *)
Definition LOOSE_REGEX : string := "mathematical|computer|forecast".

(** ["'%s': %d" % (key, value)] *)
Definition format_count (kv : string * Z) : string :=
  "'" ++ fst kv ++ "': " ++ Py.format_int (snd kv).

(** [LOE.matches(keywords, text)].  [keywords] is [None] or a pattern. *)
Definition matches (keywords : option string) (text : string) : result scored :=
  match keywords with
  | Some pat =>
      if Py.truthy pat then
        found <- Re.findall_overlapped pat text ;;
        if Py.truthy_list found then
          let counts := Py.sorted_by_count_desc (Py.Counter found) in
          let match_ := Py.join ", " (map format_count counts) in
          Ok (Py.len found, Some match_)
        else Ok (0, None)
      else Ok (0, None)
  | None => Ok (0, None)
  end.

(** [LOE.top(matches)] *)
Definition top (matches : list scored) : result scored :=
  let counts := map fst matches in
  best <- Py.max counts ;;
  if Py.truthy_int best then
    index <- Py.index counts best ;;
    match_ <- Py.getitem matches index ;;
    Ok (Py.len matches - index, snd match_)
  else Ok (0, None).

(** [LOE.filter(name)] *)
Definition filter (name : string) : result bool :=
  hit <- Re.search FILTER_REGEX name ;;
  Ok (negb hit).

(** [LOE.find(section, token)], as a truth value:
    [(name and token in name.lower()) or (text and token in text.lower())] *)
Definition find (s : section) (token : string) : bool :=
  let '(name, text, _) := s in
  (match name with
   | Some n => Py.truthy n && Py.contains token (Py.lower n)
   | None => false
   end) ||
  (match text with
   | Some t => Py.truthy t && Py.contains token (Py.lower t)
   | None => false
   end).

(** [LOE.accept(sections)] *)
Definition accept (sections : list section) : bool :=
  existsb (fun s => find s "method" || find s "result") sections.

(** The texts of the sections named "title", in order (line 84). *)
Definition title_items (sections : list section) : list (option string) :=
  flat_map (fun s : section =>
              let '(name, text, _) := s in
              match name with
              | Some n => if Py.truthy n && (Py.lower n =? "title")%string
                          then [text] else []
              | None => []
              end) sections.

(** The title text (lines 84-85). *)
Definition title_text (sections : list section) : result string :=
  joined <- Py.join_opt " " (title_items sections) ;;
  Ok (Py.lower (Py.replace_newlines joined)).

(** The loop over [TITLE_REGEX] (lines 87-92): the label of the first
    entry with a match, if any. *)
Fixpoint title_stage (entries : list (string * Z)) (title : string)
    : result (option scored) :=
  match entries with
  | [] => Ok None
  | (pat, loe) :: rest =>
      '(count, keywords) <- matches (Some pat) title ;;
      if Py.truthy_int count then Ok (Some (loe, keywords))
      else title_stage rest title
  end.

(** The texts kept for scoring (line 97): the sections without a name
    and those whose lower-cased name passes the filter. *)
Fixpoint kept_items (sections : list section) : result (list (option string)) :=
  match sections with
  | [] => Ok []
  | (name, text, _) :: rest =>
      keep <- match name with
              | Some n => if negb (Py.truthy n) then Ok true else filter (Py.lower n)
              | None => Ok true
              end ;;
      tail <- kept_items rest ;;
      Ok (if keep then text :: tail else tail)
  end.

(** The full text (lines 97-98). *)
Definition full_text (sections : list section) : result string :=
  items <- kept_items sections ;;
  joined <- Py.join_opt " " items ;;
  Ok (Py.lower (Py.replace_newlines joined)).

(** Line 102: the match result of every category with its minimum. *)
Fixpoint score_all (categories : list (string * Z)) (text : string)
    : result (list (Z * option string * Z)) :=
  match categories with
  | [] => Ok []
  | (keywords, minimum) :: rest =>
      '(count, kw) <- matches (Some keywords) text ;;
      tail <- score_all rest text ;;
      Ok ((count, kw, minimum) :: tail)
  end.

(** Line 105: a category below its minimum scores [(0, None)]. *)
Definition gate (m : Z * option string * Z) : scored :=
  let '(count, keywords, minimum) := m in
  if count >=? minimum then (count, keywords) else (0, None).

Section WithVocab.
Variable V : Vocab.

Definition SYSTEMATIC_REVIEW_REGEX := regex (SYSTEMATIC_REVIEW V).
Definition RANDOMIZED_CONTROL_TRIAL_REGEX := regex (RANDOMIZED_CONTROL_TRIAL V).
Definition PSEUDO_RANDOMIZED_CONTROL_TRIAL_REGEX :=
  regex (PSEUDO_RANDOMIZED_CONTROL_TRIAL V).
Definition RETROSPECTIVE_COHORT_REGEX :=
  regex (GENERIC_L3 V ++ RETROSPECTIVE_COHORT V).
Definition MATCHED_CASE_CONTROL_REGEX :=
  regex (GENERIC_L3 V ++ GENERIC_CASE_CONTROL V ++ MATCHED_CASE_CONTROL V).
Definition CROSS_SECTIONAL_CASE_CONTROL_REGEX :=
  regex (GENERIC_L3 V ++ GENERIC_CASE_CONTROL V ++ CROSS_SECTIONAL_CASE_CONTROL V).
Definition TIME_SERIES_ANALYSIS_REGEX := regex (TIME_SERIES_ANALYSIS V).
Definition PREVALENCE_STUDY_REGEX := regex (PREVALENCE_STUDY V).
Definition COMPUTER_MODEL_REGEX := regex (COMPUTER_MODEL V).

(** [CATEGORIES]: the pattern of every category with its minimum. *)
Definition CATEGORIES : list (string * Z) :=
  [(COMPUTER_MODEL_REGEX, 1); (PREVALENCE_STUDY_REGEX, 1); (TIME_SERIES_ANALYSIS_REGEX, 2);
   (CROSS_SECTIONAL_CASE_CONTROL_REGEX, 2); (MATCHED_CASE_CONTROL_REGEX, 2);
   (RETROSPECTIVE_COHORT_REGEX, 2);
   (PSEUDO_RANDOMIZED_CONTROL_TRIAL_REGEX, 3); (RANDOMIZED_CONTROL_TRIAL_REGEX, 3);
   (SYSTEMATIC_REVIEW_REGEX, 4)].

(** Lines 100-108: the label of a full text. *)
Definition score (text : string) : result scored :=
  if Py.truthy text then
    scored_ <- score_all CATEGORIES text ;;
    top (map gate scored_)
  else Ok (0, None).

(** Lines 94-108: the label after the full-text stage. *)
Definition full_text_stage (sections : list section) : result scored :=
  if accept sections then
    text <- full_text sections ;;
    score text
  else Ok (0, None).

(** Lines 110-116: the check of the title for a mathematical or
    computer model.  The test [not label] is on the pair [label]. *)
Definition fallback (title : string) (label : scored) : result scored :=
  if negb (Py.truthy_pair label) then
    '(count, keywords) <- matches (Some LOOSE_REGEX) title ;;
    if Py.truthy_int count then Ok (Py.len CATEGORIES, keywords)
    else Ok label
  else Ok label.

(** [LOE.label(sections)] *)
Definition label (sections : list section) : result scored :=
  title <- title_text sections ;;
  hit <- title_stage TITLE_REGEX title ;;
  match hit with
  | Some l => Ok l
  | None =>
      l <- full_text_stage sections ;;
      fallback title l
  end.

End WithVocab.

End LOE.

(* ===================================================================== *)
(** * Vocabulary of the worked examples and specification predicates *)
(* ===================================================================== *)

(** A small vocabulary for the worked examples below.  The lists of the
    repository are those of [vocab.py]; no general statement depends on
    this one. *)
Definition sample_vocab : Vocab := {|
  SYSTEMATIC_REVIEW := ["systematic review"; "meta-analysis"];
  RANDOMIZED_CONTROL_TRIAL := ["randomized controlled trial"; "randomly assigned"];
  PSEUDO_RANDOMIZED_CONTROL_TRIAL := ["pseudo-randomized"];
  GENERIC_L3 := ["cohort"];
  RETROSPECTIVE_COHORT := ["retrospective cohort"];
  GENERIC_CASE_CONTROL := ["case control"];
  MATCHED_CASE_CONTROL := ["matched case"];
  CROSS_SECTIONAL_CASE_CONTROL := ["cross-sectional"];
  TIME_SERIES_ANALYSIS := ["time series"];
  PREVALENCE_STUDY := ["prevalence"];
  COMPUTER_MODEL := ["computer model"; "simulation"]
|}.

(** [w] occurs in [s]. *)
Definition occurs (w s : string) : Prop := exists a b, s = a ++ w ++ b.

(** [token] occurs, whatever the case of the letters, in the name or in
    the text of the section. *)
Definition mentions (s : LOE.section) (token : string) : Prop :=
  let '(name, text, _) := s in
  (exists n, name = Some n /\ occurs token (Py.lower n)) \/
  (exists t, text = Some t /\ occurs token (Py.lower t)).

(** No line feed in [s]. *)
Definition one_line (s : string) : Prop :=
  forall a c b, s = a ++ String c b -> c <> Py.newline.

(** The text [a] before an occurrence of "discussion" holds "results". *)
Definition results_before (a : string) : Prop := occurs "results" a.

(** The text [a] before an occurrence of "discussion" holds "results"
    with no line feed between the two words. *)
Definition results_before_on_line (a : string) : Prop :=
  exists a1 gap, a = a1 ++ "results" ++ gap /\ one_line gap.

(** The compiled form of a literal text and of a term of [regex]. *)
Fixpoint literal (s : string) : list Re.node :=
  match s with
  | EmptyString => []
  | String c s' => Re.Plain (Re.One (Re.Chr c)) :: literal s'
  end.

Definition phrase (term : string) : list Re.node :=
  Re.Plain Re.WordB :: literal term ++ [Re.Plain Re.WordB].

(** The text behind a cursor once [a] has been read past [before]. *)
Fixpoint rev_onto (a before : string) : string :=
  match a with
  | EmptyString => before
  | String c a' => rev_onto a' (String c before)
  end.

(** The compiled form of a literal text inside a look-behind group. *)
Fixpoint literal_items (s : string) : list Re.item :=
  match s with
  | EmptyString => []
  | String c s' => Re.One (Re.Chr c) :: literal_items s'
  end.

(** Every character of [g] is accepted by the atom [a]. *)
Definition all_accepted (a : Re.atom) (g : string) : Prop :=
  forall x c y, g = x ++ String c y -> Re.accepts a c = true.

(** The compiled form of the look-behind group and of the pattern of
    [LOE.filter]. *)
Definition results_alt : list Re.item :=
  Re.Lazy Re.AnyChar :: literal_items "results" ++ [Re.Lazy Re.AnyChar].

Definition filter_pattern : Re.pattern :=
  [literal "introduction";
   Re.NotBehind [results_alt] :: literal "discussion";
   literal "background";
   literal "reference"].

(** The rule of the section filter in the words of the specification: a
    name is rejected when it holds "introduction", "background" or
    "reference", or holds "discussion" without "results" before it. *)
Definition filter_as_stated (name : string) : Prop :=
  LOE.filter name = Ok false <->
  (occurs "introduction" name \/ occurs "background" name \/ occurs "reference" name \/
   exists a b, name = a ++ "discussion" ++ b /\ ~ results_before a).



(** A match result is well formed when it is [(0, None)] or a positive
    count with a non-empty keyword string. *)
Definition well_formed (m : LOE.scored) : Prop :=
  (fst m = 0 /\ snd m = None) \/ (0 < fst m /\ exists s, snd m = Some s /\ s <> "").

(** A label is well formed when it is [(0, None)] or a level from 1 to 9
    with a non-empty keyword string. *)
Definition label_ok (l : LOE.scored) : Prop :=
  (l = (0, None)) \/ (1 <= fst l <= 9 /\ exists s, snd l = Some s /\ s <> "").

(** The section with its name and its text in lower case and without
    its third component. *)
Definition normalise (s : LOE.section) : LOE.section :=
  let '(name, text, _) := s in
  (option_map Py.lower name, option_map Py.lower text, None).

(** The section with the line feeds of its text replaced by spaces. *)
Definition on_one_line (s : LOE.section) : LOE.section :=
  let '(name, text, x) := s in
  (name, option_map Py.replace_newlines text, x).


(** The sum of the counts of a list of [(key, count)] pairs. *)
Definition total_count (counts : list (string * Z)) : Z :=
  fold_right (fun kv acc => snd kv + acc) 0 counts.


(** [s] holds no line feed and no upper-case letter. *)
Definition normal_text (s : string) : Prop :=
  forall a c b, s = a ++ String c b -> c <> Py.newline /\ Py.is_upper c = false.


(* ===================================================================== *)
(** * Strings *)
(* ===================================================================== *)

Section StringFacts.

Lemma append_nil_r (s : string) : s ++ "" = s.
Proof. induction s as [|c s IH]; simpl; [reflexivity | now rewrite IH]. Qed.

Lemma append_assoc (a b c : string) : (a ++ b) ++ c = a ++ b ++ c.
Proof. induction a as [|x a IH]; simpl; [reflexivity | now rewrite IH]. Qed.

Lemma length_append (a b : string) :
  String.length (a ++ b) = (String.length a + String.length b)%nat.
Proof. induction a as [|x a IH]; simpl; [reflexivity | now rewrite IH]. Qed.

Lemma prefix_true_iff (w s : string) :
  String.prefix w s = true <-> exists b, s = w ++ b.
Proof.
  revert s; induction w as [|c w IH]; intros s.
  - destruct s; simpl; split; intros; eauto.
  - destruct s as [|d s]; simpl.
    + split; [discriminate | intros [b Hb]; discriminate].
    + destruct (ascii_dec c d) as [->|Hne].
      * rewrite IH. split; intros [b Hb]; exists b; congruence.
      * split; [discriminate | intros [b Hb]; congruence].
Qed.

Lemma contains_true_iff (w s : string) :
  Py.contains w s = true <-> occurs w s.
Proof.
  unfold occurs. induction s as [|c s IH].
  - change (Py.contains w "") with (String.prefix w "" || false).
    rewrite orb_false_r, prefix_true_iff. split.
    + intros [b Hb]. now exists "", b.
    + intros [[|x a] [b Hb]]; [now exists b | discriminate].
  - change (Py.contains w (String c s))
      with (String.prefix w (String c s) || Py.contains w s).
    rewrite orb_true_iff, prefix_true_iff, IH. split.
    + intros [[b Hb] | [a [b Hb]]].
      * now exists "", b.
      * exists (String c a), b. simpl. now rewrite Hb.
    + intros [[|x a] [b Hb]].
      * left. now exists b.
      * right. exists a, b. simpl in Hb. congruence.
Qed.

Lemma contains_false_iff (w s : string) :
  Py.contains w s = false <-> ~ occurs w s.
Proof.
  rewrite <- contains_true_iff. destruct (Py.contains w s); split; congruence.
Qed.

Lemma truthy_true_iff (s : string) : Py.truthy s = true <-> s <> "".
Proof. destruct s; simpl; split; congruence. Qed.

Lemma concat_nonempty (sep x : string) (xs : list string) :
  x <> "" -> String.concat sep (x :: xs) <> "".
Proof.
  intros Hx. simpl. destruct xs; [assumption|].
  destruct x; [congruence | discriminate].
Qed.

End StringFacts.

(* ===================================================================== *)
(** * The match counter *)
(* ===================================================================== *)

Section MatchCounter.

Lemma count_key_nonempty key counts : Py.count_key key counts <> [].
Proof. destruct counts as [|[k n] rest]; simpl; [|destruct (k =? key)%string]; discriminate. Qed.

Lemma Counter_nonempty (x : string) (l : list string) : Py.Counter (x :: l) <> [].
Proof.
  unfold Py.Counter. simpl.
  assert (H : forall l acc, acc <> [] ->
            fold_left (fun counts key => Py.count_key key counts) l acc <> []).
  { clear. induction l as [|y l IH]; intros acc Hacc; simpl; [assumption|].
    apply IH, count_key_nonempty. }
  apply H. discriminate.
Qed.

Lemma insert_desc_nonempty x l : Py.insert_desc x l <> [].
Proof. destruct l as [|y rest]; simpl; [|destruct (snd y <=? snd x)]; discriminate. Qed.

Lemma sorted_nonempty (l : list (string * Z)) :
  l <> [] -> Py.sorted_by_count_desc l <> [].
Proof.
  destruct l as [|x l]; [congruence|]. intros _. simpl. apply insert_desc_nonempty.
Qed.

Lemma format_count_nonempty kv : LOE.format_count kv <> "".
Proof. unfold LOE.format_count. simpl. discriminate. Qed.

(** The keyword string of a non-empty list of matches is not empty. *)
Lemma keyword_string_nonempty (x : string) (l : list string) :
  Py.join ", " (map LOE.format_count (Py.sorted_by_count_desc (Py.Counter (x :: l)))) <> "".
Proof.
  pose proof (sorted_nonempty _ (Counter_nonempty x l)) as H.
  destruct (Py.sorted_by_count_desc (Py.Counter (x :: l))) as [|kv rest]; [congruence|].
  simpl map. apply concat_nonempty, format_count_nonempty.
Qed.

(** A match result is [(0, None)] or a positive count with a non-empty
    keyword string. *)
Lemma matches_cases keywords text count kw :
  LOE.matches keywords text = Ok (count, kw) ->
  (count = 0 /\ kw = None) \/
  (0 < count /\ exists s, kw = Some s /\ s <> "").
Proof.
  unfold LOE.matches. destruct keywords as [pat|]; [|intros [= <- <-]; auto].
  destruct (Py.truthy pat); [|intros [= <- <-]; auto].
  destruct (Re.findall_overlapped pat text) as [found|e]; simpl; [|discriminate].
  destruct found as [|x l]; simpl; intros [= <- <-]; [auto|].
  right. split.
  - unfold Py.len. simpl List.length. lia.
  - eexists. split; [reflexivity|]. apply keyword_string_nonempty.
Qed.

(** The counter raises only when the pattern does not compile. *)
Lemma matches_raises pat text e :
  LOE.matches (Some pat) text = Raise e -> Re.compile pat = None.
Proof.
  unfold LOE.matches, Re.findall_overlapped.
  destruct (Py.truthy pat); [|discriminate].
  destruct (Re.compile pat); simpl; [|reflexivity].
  destruct (Py.truthy_list _); discriminate.
Qed.

Lemma matches_returns pat text :
  Re.compile pat <> None -> exists count kw, LOE.matches (Some pat) text = Ok (count, kw).
Proof.
  intros H. destruct (LOE.matches (Some pat) text) as [[c kw]|e] eqn:E; [eauto|].
  apply matches_raises in E. contradiction.
Qed.

End MatchCounter.

(* ===================================================================== *)
(** * Selection of the best category *)
(* ===================================================================== *)

Section Top.

Lemma fold_max_bounds (rest : list Z) (x : Z) :
  x <= fold_left Z.max rest x /\
  (forall y, In y rest -> y <= fold_left Z.max rest x).
Proof.
  revert x; induction rest as [|z rest IH]; intros x; simpl.
  - split; [lia | intros y []].
  - destruct (IH (Z.max x z)) as [H1 H2]. split; [lia|].
    intros y [<-|Hy]; [lia | auto].
Qed.

Lemma fold_max_in (rest : list Z) (x : Z) : In (fold_left Z.max rest x) (x :: rest).
Proof.
  revert x; induction rest as [|z rest IH]; intros x; simpl; [auto|].
  destruct (IH (Z.max x z)) as [H|H]; [|right; right; exact H].
  destruct (Z.max_spec x z) as [[_ E]|[_ E]]; rewrite E in H at 1.
  - right; left; exact H.
  - left; exact H.
Qed.

Lemma max_spec (l : list Z) :
  l <> [] ->
  exists best, Py.max l = Ok best /\ In best l /\ forall y, In y l -> y <= best.
Proof.
  destruct l as [|x rest]; [congruence|]. intros _.
  exists (fold_left Z.max rest x). split; [reflexivity|]. split.
  - apply fold_max_in.
  - destruct (fold_max_bounds rest x) as [H1 H2]. intros y [<-|Hy]; auto.
Qed.

Lemma index_from_spec (x : Z) (l : list Z) (k : Z) :
  In x l ->
  exists i, Py.index_from x k l = Ok (k + Z.of_nat i) /\
            nth_error l i = Some x /\
            forall j y, (j < i)%nat -> nth_error l j = Some y -> y <> x.
Proof.
  revert k; induction l as [|y l IH]; intros k; [intros []|].
  intros Hin. simpl. destruct (Z.eqb_spec y x) as [->|Hne].
  - exists 0%nat. repeat split; [f_equal; lia | intros j y Hj; lia].
  - destruct Hin as [->|Hin]; [congruence|].
    destruct (IH (k + 1) Hin) as (i & Hi & Hnth & Hmin).
    exists (S i). repeat split.
    + rewrite Hi. f_equal. lia.
    + exact Hnth.
    + intros [|j] z Hj Hz; simpl in Hz; [congruence|].
      apply (Hmin j); [lia | assumption].
Qed.

Lemma nth_error_map_fst {A B : Type} (l : list (A * B)) (i : nat) (a : A) :
  nth_error (map fst l) i = Some a -> exists b, nth_error l i = Some (a, b).
Proof.
  rewrite nth_error_map. destruct (nth_error l i) as [[a' b]|]; simpl; [|discriminate].
  intros [= ->]. now exists b.
Qed.

Lemma getitem_nth {A : Type} (l : list A) (i : nat) (a : A) :
  nth_error l i = Some a -> Py.getitem l (Z.of_nat i) = Ok a.
Proof.
  intros H. unfold Py.getitem.
  destruct (Z.ltb_spec (Z.of_nat i) 0); [lia|]. now rewrite Nat2Z.id, H.
Qed.

(** What [top] returns on a list that is not empty. *)
Lemma top_spec (ms : list LOE.scored) :
  ms <> [] ->
  exists best,
    Py.max (map fst ms) = Ok best /\
    (forall c kw, In (c, kw) ms -> c <= best) /\
    (best = 0 -> LOE.top ms = Ok (0, None)) /\
    (best <> 0 ->
     exists i kw,
       nth_error ms i = Some (best, kw) /\
       (forall j c kw', (j < i)%nat -> nth_error ms j = Some (c, kw') -> c < best) /\
       LOE.top ms = Ok (Py.len ms - Z.of_nat i, kw)).
Proof.
  intros Hne.
  destruct (max_spec (map fst ms)) as (best & Hmax & Hin & Hle).
  { destruct ms; [congruence | discriminate]. }
  assert (Hall : forall c kw, In (c, kw) ms -> c <= best).
  { intros c kw H. apply Hle. change c with (fst (c, kw)). now apply in_map. }
  exists best. split; [assumption|]. split; [assumption|].
  unfold LOE.top. rewrite Hmax. simpl. unfold Py.truthy_int. split.
  - intros ->. reflexivity.
  - intros Hnz. destruct (Z.eqb_spec best 0) as [|_]; [contradiction|]. simpl.
    destruct (index_from_spec best (map fst ms) 0 Hin) as (i & Hi & Hnth & Hmin).
    destruct (nth_error_map_fst _ _ _ Hnth) as [kw Hkw].
    exists i, kw. split; [assumption|]. split.
    + intros j c kw' Hj Hc.
      assert (c <= best) by (eapply Hall, nth_error_In, Hc).
      assert (c <> best).
      { apply (Hmin j); [assumption|].
        rewrite nth_error_map, Hc. reflexivity. }
      lia.
    + unfold Py.index. rewrite Hi, Z.add_0_l. simpl.
      rewrite (getitem_nth _ _ _ Hkw). reflexivity.
Qed.

Lemma top_returns (ms : list LOE.scored) :
  ms <> [] -> exists l, LOE.top ms = Ok l.
Proof.
  intros H. destruct (top_spec ms H) as (best & _ & _ & H0 & H1).
  destruct (Z.eq_dec best 0) as [E|E].
  - eauto.
  - destruct (H1 E) as (i & kw & _ & _ & Ht). eauto.
Qed.

End Top.

(* ===================================================================== *)
(** * Compilation of the patterns *)
(* ===================================================================== *)

Section Compilation.

(** An escaped character compiles to that character. *)
Lemma parse_escape_char c rest cur done outer :
  Re.parse (Re.escape_char c ++ rest) cur done outer =
  Re.parse rest (Re.Plain (Re.One (Re.Chr c)) :: cur) done outer.
Proof.
  destruct c as [[] [] [] [] [] [] [] []]; reflexivity.
Qed.

Lemma parse_escape t rest cur done outer :
  Re.parse (Re.escape t ++ rest) cur done outer =
  Re.parse rest (rev (literal t) ++ cur) done outer.
Proof.
  revert cur; induction t as [|c t IH]; intros cur; [reflexivity|].
  cbn [Re.escape literal]. rewrite append_assoc, parse_escape_char, IH.
  cbn [rev]. now rewrite <- app_assoc.
Qed.

Lemma parse_phrase t rest cur done outer :
  Re.parse (("\b" ++ Re.escape t ++ "\b") ++ rest) cur done outer =
  Re.parse rest (rev (phrase t) ++ cur) done outer.
Proof.
  change (("\b" ++ Re.escape t ++ "\b") ++ rest)
    with (String "\" (String "b" ((Re.escape t ++ "\b") ++ rest))).
  cbn [Re.parse]. cbv beta iota. 
  change (Re.parse ((Re.escape t ++ "\b") ++ rest) (Re.Plain Re.WordB :: cur) done outer =
          Re.parse rest (rev (phrase t) ++ cur) done outer).
  rewrite append_assoc, parse_escape.
  change ("\b" ++ rest) with (String "\" (String "b" rest)).
  cbn [Re.parse].
  change (Re.parse rest (Re.Plain Re.WordB :: rev (literal t) ++ Re.Plain Re.WordB :: cur) done outer =
          Re.parse rest (rev (phrase t) ++ cur) done outer).
  f_equal. unfold phrase. cbn [rev]. rewrite rev_app_distr. cbn [rev app].
  rewrite <- !app_assoc. reflexivity.
Qed.

Lemma parse_terms (t : string) (terms : list string) (done : list (list Re.node)) :
  Re.parse (regex (t :: terms)) [] done None =
  Some (rev done ++ map (fun term => phrase (Py.lower term)) (t :: terms))%list.
Proof.
  revert t done; induction terms as [|t' terms IH]; intros t done.
  - unfold regex, Py.join. cbn [map String.concat].
    rewrite <- (append_nil_r (_ ++ _ ++ "\b")), parse_phrase.
    cbn [Re.parse]. unfold Re.close_alts.
    rewrite app_nil_r, rev_involutive. cbn [rev]. reflexivity.
  - unfold regex, Py.join in *. cbn [map String.concat] in *.
    rewrite parse_phrase.
    change ("|" ++ ?x) with (String "|" x).
    cbn [Re.parse]. 
    change (Re.parse (String.concat "|" (("\b" ++ Re.escape (Py.lower t') ++ "\b")
              :: map (fun term => "\b" ++ Re.escape (Py.lower term) ++ "\b") terms))
              [] (rev (rev (phrase (Py.lower t)) ++ []) :: done) None = 
            Some (rev done ++ phrase (Py.lower t) :: map (fun term => phrase (Py.lower term)) (t' :: terms))%list).
    rewrite (IH t'). rewrite app_nil_r, rev_involutive. cbn [rev].
    rewrite <- app_assoc. reflexivity.
Qed.

(** Every pattern built by [regex] compiles: to one alternative per term,
    the lower-cased term between two word boundaries. *)
Lemma compile_regex (terms : list string) :
  Re.compile (regex terms) =
  Some (match terms with
        | [] => [[]]
        | _ => map (fun term => phrase (Py.lower term)) terms
        end).
Proof.
  destruct terms as [|t terms]; [reflexivity|].
  unfold Re.compile. now rewrite parse_terms.
Qed.

Lemma compile_regex_ok (terms : list string) : Re.compile (regex terms) <> None.
Proof. rewrite compile_regex. discriminate. Qed.

Lemma compile_title_regex pat loe :
  In (pat, loe) LOE.TITLE_REGEX -> Re.compile pat <> None.
Proof.
  unfold LOE.TITLE_REGEX.
  intros H; repeat (destruct H as [[= <- <-]|H]; [first [apply compile_regex_ok | vm_compute; discriminate]|]).
  destruct H.
Qed.

Lemma compile_categories V pat minimum :
  In (pat, minimum) (LOE.CATEGORIES V) -> Re.compile pat <> None.
Proof.
  unfold LOE.CATEGORIES.
  intros H; repeat (destruct H as [[= <- <-]|H]; [apply compile_regex_ok|]).
  destruct H.
Qed.

Lemma compile_loose : Re.compile LOE.LOOSE_REGEX <> None.
Proof. vm_compute. discriminate. Qed.

End Compilation.

(* ===================================================================== *)
(** * The stages of [label] *)
(* ===================================================================== *)

Section Stages.

Variable V : Vocab.

Lemma matches_well_formed keywords text m :
  LOE.matches keywords text = Ok m -> well_formed m.
Proof. destruct m as [count kw]. apply matches_cases. Qed.

(** The test [not label] never holds: the last stage returns the label
    it is given. *)
Lemma fallback_returns_label title l : LOE.fallback V title l = Ok l.
Proof. reflexivity. Qed.


Lemma title_stage_no_hit entries title :
  (forall pat loe, In (pat, loe) entries -> LOE.matches (Some pat) title = Ok (0, None)) ->
  LOE.title_stage entries title = Ok None.
Proof.
  induction entries as [|[p l] entries IH]; intros H; [reflexivity|].
  cbn [LOE.title_stage]. rewrite (H p l) by (left; reflexivity). cbn [Py.bind].
  change (Py.truthy_int 0) with false. cbv iota.
  apply IH. intros pat loe Hin. apply (H pat loe). now right.
Qed.

(** The title stage returns: a label of the list with a well-formed,
    positive match, or nothing when no pattern has a match. *)
Lemma title_stage_cases entries title :
  (forall pat loe, In (pat, loe) entries -> Re.compile pat <> None) ->
  (exists pat loe count kw,
      In (pat, loe) entries /\ LOE.matches (Some pat) title = Ok (count, kw) /\
      0 < count /\ LOE.title_stage entries title = Ok (Some (loe, kw))) \/
  ((forall pat loe, In (pat, loe) entries -> LOE.matches (Some pat) title = Ok (0, None)) /\
   LOE.title_stage entries title = Ok None).
Proof.
  induction entries as [|[p l] entries IH]; intros Hc.
  - right. split; [intros ? ? [] | reflexivity].
  - destruct (matches_returns p title) as (count & kw & Hm).
    { apply (Hc p l). now left. }
    destruct (matches_cases _ _ _ _ Hm) as [[-> ->]|[Hpos _]].
    + destruct IH as [(pat & loe & c & k & Hin & Hm' & Hpos & Ht)|[Hall Ht]].
      { intros pat loe Hin. apply (Hc pat loe). now right. }
      * left. exists pat, loe, c, k. repeat split; auto; [now right|].
        cbn [LOE.title_stage]. rewrite Hm. cbn [Py.bind]. exact Ht.
      * right. split.
        -- intros pat loe [Heq|Hin]; [injection Heq as <- <-; exact Hm | now apply (Hall pat loe)].
        -- cbn [LOE.title_stage]. rewrite Hm. cbn [Py.bind]. exact Ht.
    + left. exists p, l, count, kw. repeat split; auto; [now left|].
      cbn [LOE.title_stage]. rewrite Hm. cbn [Py.bind]. unfold Py.truthy_int.
      destruct (Z.eqb_spec count 0); [lia | reflexivity].
Qed.

Lemma filter_returns name : exists b, LOE.filter name = Ok b.
Proof.
  unfold LOE.filter, Re.search.
  destruct (Re.compile LOE.FILTER_REGEX) eqn:E; [simpl; eauto|].
  vm_compute in E. discriminate.
Qed.

Lemma kept_items_returns sections : exists items, LOE.kept_items sections = Ok items.
Proof.
  induction sections as [|[[name text] x] sections [items IH]]; [now exists []|].
  cbn [LOE.kept_items]. rewrite IH.
  destruct name as [n|]; [|cbn; eauto].
  destruct (Py.truthy n); cbn [negb]; [|cbn; eauto].
  destruct (filter_returns (Py.lower n)) as [b ->]. cbn. eauto.
Qed.

Lemma score_all_returns categories text :
  (forall pat minimum, In (pat, minimum) categories -> Re.compile pat <> None) ->
  exists raw, LOE.score_all categories text = Ok raw /\
              List.length raw = List.length categories /\
              forall c kw m, In (c, kw, m) raw -> well_formed (c, kw).
Proof.
  induction categories as [|[p m] categories IH]; intros Hc.
  - exists []. repeat split. intros ? ? ? [].
  - destruct (matches_returns p text) as (count & kw & Hm).
    { apply (Hc p m). now left. }
    destruct IH as (raw & Hraw & Hlen & Hwf).
    { intros pat minimum Hin. apply (Hc pat minimum). now right. }
    exists ((count, kw, m) :: raw). split; [|split].
    + cbn [LOE.score_all]. rewrite Hm. cbn [Py.bind]. rewrite Hraw. reflexivity.
    + cbn [List.length]. congruence.
    + intros c k m' [Heq|Hin]; [|eauto].
      injection Heq as <- <- <-. eapply matches_well_formed, Hm.
Qed.

Lemma gate_well_formed c kw m : well_formed (c, kw) -> well_formed (LOE.gate (c, kw, m)).
Proof.
  intros H. unfold LOE.gate. destruct (c >=? m); [exact H|]. left. auto.
Qed.

Lemma score_categories text :
  exists raw, LOE.score_all (LOE.CATEGORIES V) text = Ok raw /\
              List.length raw = 9%nat /\
              forall c kw m, In (c, kw, m) raw -> well_formed (c, kw).
Proof. apply score_all_returns, (compile_categories V). Qed.

Lemma top_label_ok (ms : list LOE.scored) :
  List.length ms = 9%nat -> (forall m, In m ms -> well_formed m) ->
  exists l, LOE.top ms = Ok l /\ label_ok l.
Proof.
  intros Hlen Hwf.
  destruct (top_spec ms) as (best & _ & _ & H0 & H1).
  { destruct ms; [discriminate | congruence]. }
  destruct (Z.eq_dec best 0) as [E|E].
  - exists (0, None). split; [auto | now left].
  - destruct (H1 E) as (i & kw & Hnth & _ & Ht).
    exists (Py.len ms - Z.of_nat i, kw). split; [exact Ht|]. right.
    assert (Hi : (i < 9)%nat).
    { rewrite <- Hlen. apply nth_error_Some. congruence. }
    unfold Py.len. rewrite Hlen. cbn [fst snd]. split; [lia|].
    destruct (Hwf _ (nth_error_In _ _ Hnth)) as [[Hz _]|[_ Hs]]; [simpl in Hz; congruence|].
    exact Hs.
Qed.

Lemma score_returns text : exists l, LOE.score V text = Ok l /\ label_ok l.
Proof.
  unfold LOE.score. destruct (Py.truthy text).
  - destruct (score_categories text) as (raw & -> & Hlen & Hwf). simpl.
    apply top_label_ok; [now rewrite length_map|].
    intros m Hin. apply in_map_iff in Hin. destruct Hin as ([[c kw] mn] & <- & Hin).
    apply gate_well_formed. eauto.
  - exists (0, None). split; [reflexivity | now left].
Qed.

Lemma title_label_ok pat loe count kw title :
  In (pat, loe) LOE.TITLE_REGEX -> LOE.matches (Some pat) title = Ok (count, kw) ->
  0 < count -> label_ok (loe, kw).
Proof.
  intros Hin Hm Hpos. right. split.
  - unfold LOE.TITLE_REGEX in Hin. simpl in Hin.
    repeat (destruct Hin as [[= _ <-]|Hin]; [simpl; lia|]). destruct Hin.
  - destruct (matches_cases _ _ _ _ Hm) as [[-> _]|[_ Hs]]; [lia | exact Hs].
Qed.

(** Whenever [label] returns, the label is well formed. *)
Lemma label_returns_ok sections l : LOE.label V sections = Ok l -> label_ok l.
Proof.
  unfold LOE.label. destruct (LOE.title_text sections) as [title|e]; cbn [Py.bind]; [|discriminate].
  destruct (title_stage_cases LOE.TITLE_REGEX title compile_title_regex)
    as [(pat & loe & c & k & Hin & Hm & Hpos & ->)|[_ ->]]; cbn [Py.bind].
  - intros [= <-]. eapply title_label_ok; eauto.
  - unfold LOE.full_text_stage. destruct (LOE.accept sections).
    + destruct (LOE.full_text sections) as [text|e]; cbn [Py.bind]; [|discriminate].
      destruct (score_returns text) as (l' & -> & Hok). cbn [Py.bind].
      intros [= <-]. exact Hok.
    + cbn [Py.bind]. intros [= <-]. now left.
Qed.

(** [label] raises nothing but the TypeError of a join. *)
Lemma label_raises sections e : LOE.label V sections = Raise e -> e = TypeError.
Proof.
  unfold LOE.label, LOE.title_text, Py.join_opt.
  destruct (Py.all_str (LOE.title_items sections)) as [items|]; cbn [Py.bind]; [|congruence].
  destruct (title_stage_cases LOE.TITLE_REGEX
              (Py.lower (Py.replace_newlines (Py.join " " items))) compile_title_regex)
    as [(pat & loe & c & k & Hin & Hm & Hpos & ->)|[_ ->]]; cbn [Py.bind]; [discriminate|].
  unfold LOE.full_text_stage. destruct (LOE.accept sections); [|discriminate].
  unfold LOE.full_text, Py.join_opt.
  destruct (kept_items_returns sections) as [kept ->]. cbn [Py.bind].
  destruct (Py.all_str kept) as [texts|]; cbn [Py.bind]; [|congruence].
  destruct (score_returns (Py.lower (Py.replace_newlines (Py.join " " texts))))
    as (l' & -> & _). discriminate.
Qed.

End Stages.

(* ===================================================================== *)
(** * The matcher *)
(* ===================================================================== *)

Section Matcher.

Lemma or_else_some {A : Type} (x y : option A) :
  Re.or_else x y <> None <-> x <> None \/ y <> None.
Proof.
  destruct x as [v|]; cbn [Re.or_else].
  - split; [intros _; left; discriminate | intros _; discriminate].
  - split; [intros H; now right | intros [H|H]; [congruence | exact H]].
Qed.

Lemma match_at_some (p : Re.pattern) (cur : Re.cursor) :
  Re.match_at p cur <> None <->
  exists alt, In alt p /\ Re.run_nodes alt Some cur <> None.
Proof.
  induction p as [|alt p IH]; cbn [Re.match_at].
  - split; [congruence | intros (alt & [] & _)].
  - rewrite or_else_some, IH. split.
    + intros [H|(alt' & Hin & H)].
      * exists alt. split; [now left | exact H].
      * exists alt'. split; [now right | exact H].
    + intros (alt' & [<-|Hin] & H); [now left | right; now exists alt'].
Qed.

(** [found] looks at every position of the text. *)
Lemma found_true (p : Re.pattern) (before after : string) :
  Re.found p before after = true <->
  exists a rest, after = a ++ rest /\
                 Re.match_at p (Re.Cursor (rev_onto a before) rest) <> None.
Proof.
  revert before; induction after as [|c after IH]; intros before; cbn [Re.found].
  - rewrite orb_false_r. split.
    + intros H. exists "", "". split; [reflexivity|]. cbn [rev_onto].
      destruct (Re.match_at p _); [discriminate | congruence].
    + intros (a & rest & Heq & H). destruct a; [|discriminate].
      simpl in Heq. subst rest. cbn [rev_onto] in H.
      destruct (Re.match_at p _); [reflexivity | congruence].
  - rewrite orb_true_iff, IH. split.
    + intros [H|(a & rest & -> & H)].
      * exists "", (String c after). split; [reflexivity|]. cbn [rev_onto].
        destruct (Re.match_at p _); [discriminate | congruence].
      * exists (String c a), rest. split; [reflexivity | exact H].
    + intros (a & rest & Heq & H). destruct a as [|d a].
      * left. simpl in Heq. subst rest. cbn [rev_onto] in H.
        destruct (Re.match_at p _); [reflexivity | congruence].
      * right. simpl in Heq. injection Heq as <- ->. exists a, rest. split; auto.
Qed.


Lemma run_one_char {A : Type} (c : ascii) (k : Re.cursor -> option A) before after :
  Re.run_item (Re.One (Re.Chr c)) k (Re.Cursor before after) <> None <->
  exists b, after = String c b /\ k (Re.Cursor (String c before) b) <> None.
Proof.
  unfold Re.run_item, Re.advance. cbn [Re.ahead Re.behind].
  destruct after as [|d after].
  - split; [congruence | intros (b & Hb & _); discriminate].
  - cbn [Re.accepts]. destruct (Ascii.eqb_spec d c) as [->|Hne].
    + split; [intros H; now exists after | intros (b & [= <-] & H); exact H].
    + split; [congruence | intros (b & [= E _] & _); contradiction].
Qed.

(** A literal text matches exactly itself. *)
Lemma run_literal {A : Type} (w : string) (l : list Re.node)
    (k : Re.cursor -> option A) before after :
  Re.run_nodes (literal w ++ l) k (Re.Cursor before after) <> None <->
  exists b, after = w ++ b /\ Re.run_nodes l k (Re.Cursor (rev_onto w before) b) <> None.
Proof.
  revert before after; induction w as [|c w IH]; intros before after.
  - cbn [literal app rev_onto]. split.
    + intros H. now exists after.
    + intros (b & -> & H). exact H.
  - cbn [literal app Re.run_nodes rev_onto]. rewrite run_one_char. split.
    + intros (b & -> & H). apply IH in H. destruct H as (b' & -> & H). now exists b'.
    + intros (b & -> & H). exists (w ++ b). split; [reflexivity|]. apply IH. now exists b.
Qed.

Lemma run_literal_items {A : Type} (w : string) (l : list Re.item)
    (k : Re.cursor -> option A) before after :
  Re.run_items (literal_items w ++ l) k (Re.Cursor before after) <> None <->
  exists b, after = w ++ b /\ Re.run_items l k (Re.Cursor (rev_onto w before) b) <> None.
Proof.
  revert before after; induction w as [|c w IH]; intros before after.
  - cbn [literal_items app rev_onto]. split.
    + intros H. now exists after.
    + intros (b & -> & H). exact H.
  - cbn [literal_items app Re.run_items rev_onto]. rewrite run_one_char. split.
    + intros (b & -> & H). apply IH in H. destruct H as (b' & -> & H). now exists b'.
    + intros (b & -> & H). exists (w ++ b). split; [reflexivity|]. apply IH. now exists b.
Qed.

Lemma all_accepted_nil a : all_accepted a "".
Proof. intros [|d x] c y H; discriminate. Qed.

Lemma all_accepted_cons a c g :
  all_accepted a (String c g) <-> Re.accepts a c = true /\ all_accepted a g.
Proof.
  split.
  - intros H. split.
    + apply (H "" c g). reflexivity.
    + intros x d y ->. apply (H (String c x) d y). reflexivity.
  - intros [Hc Hg] [|e x] d y Heq; simpl in Heq; injection Heq as -> ->; [exact Hc|].
    eapply Hg. reflexivity.
Qed.

(** A lazy repetition reads some accepted characters, then continues. *)
Lemma lazy_loop_some {A : Type} (a : Re.atom) (k : Re.cursor -> option A) before after :
  Re.lazy_loop a k before after <> None <->
  exists g r, after = g ++ r /\ all_accepted a g /\
              k (Re.Cursor (rev_onto g before) r) <> None.
Proof.
  revert before; induction after as [|c after IH]; intros before; cbn [Re.lazy_loop].
  - destruct (k (Re.Cursor before "")) eqn:E.
    + split; [|discriminate]. intros _. exists "", "".
      repeat split; [apply all_accepted_nil | cbn [rev_onto]; congruence].
    + split; [congruence|]. intros (g & r & Heq & _ & H).
      destruct g; [|discriminate]. simpl in Heq. subst r. cbn [rev_onto] in H. congruence.
  - destruct (k (Re.Cursor before (String c after))) eqn:E.
    + split; [|discriminate]. intros _. exists "", (String c after).
      repeat split; [apply all_accepted_nil | cbn [rev_onto]; congruence].
    + destruct (Re.accepts a c) eqn:Hc.
      * rewrite IH. split.
        -- intros (g & r & -> & Hg & H). exists (String c g), r.
           repeat split; [now apply all_accepted_cons | exact H].
        -- intros (g & r & Heq & Hg & H). destruct g as [|d g].
           ++ simpl in Heq. subst r. cbn [rev_onto] in H. congruence.
           ++ simpl in Heq. injection Heq as <- ->. apply all_accepted_cons in Hg.
              exists g, r. repeat split; [apply Hg | exact H].
      * split; [congruence|]. intros (g & r & Heq & Hg & H). destruct g as [|d g].
        -- simpl in Heq. subst r. cbn [rev_onto] in H. congruence.
        -- simpl in Heq. injection Heq as <- ->. apply all_accepted_cons in Hg.
           destruct Hg as [Hd _]. congruence.
Qed.

End Matcher.

(* ===================================================================== *)
(** * The section filter *)
(* ===================================================================== *)

Section SectionFilter.

Lemma rev_onto_app (a b before : string) :
  rev_onto (a ++ b) before = rev_onto b (rev_onto a before).
Proof. revert before; induction a as [|c a IH]; intros before; simpl; auto. Qed.

Lemma rev_onto_append (a before : string) : rev_onto a before = rev_onto a "" ++ before.
Proof.
  revert before; induction a as [|c a IH]; intros before; [reflexivity|].
  cbn [rev_onto]. rewrite (IH (String c before)), (IH (String c "")).
  now rewrite append_assoc.
Qed.

Lemma rev_onto_involutive (a : string) : rev_onto (rev_onto a "") "" = a.
Proof.
  induction a as [|c a IH]; [reflexivity|].
  cbn [rev_onto]. rewrite (rev_onto_append a), rev_onto_app, IH. reflexivity.
Qed.

Lemma rev_onto_split (a a' before0 : string) :
  rev_onto a "" = rev_onto a' before0 -> a = rev_onto before0 "" ++ a'.
Proof.
  intros H. rewrite <- (rev_onto_involutive a), H.
  rewrite (rev_onto_append a'), rev_onto_app, rev_onto_involutive.
  apply rev_onto_append.
Qed.

(** Two splits of a text with tails of equal length are the same split. *)
Lemma append_same_tail (x y r r' : string) :
  x ++ r = y ++ r' -> String.length r = String.length r' -> x = y /\ r = r'.
Proof.
  revert y; induction x as [|c x IH]; intros y Heq Hlen.
  - destruct y as [|d y]; [auto|]. exfalso. simpl in Heq. subst r.
    simpl in Hlen. rewrite length_append in Hlen. lia.
  - destruct y as [|d y].
    + exfalso. simpl in Heq. subst r'. simpl in Hlen. rewrite length_append in Hlen. lia.
    + simpl in Heq. injection Heq as -> Heq. destruct (IH y Heq Hlen) as [-> ->]. auto.
Qed.

Lemma one_line_accepted (g : string) : one_line g <-> all_accepted Re.AnyChar g.
Proof.
  unfold one_line, all_accepted. cbn [Re.accepts].
  split; intros H x c y Heq; specialize (H x c y Heq).
  - destruct (Ascii.eqb_spec c Py.newline); [contradiction | reflexivity].
  - destruct (Ascii.eqb_spec c Py.newline); [discriminate | assumption].
Qed.

Lemma ends_at_true stop alt cur :
  Re.ends_at stop alt cur = true <->
  Re.run_items alt
    (fun c => if (String.length (Re.ahead c) =? stop)%nat then Some tt else None) cur
  <> None.
Proof.
  unfold Re.ends_at. destruct (Re.run_items alt _ cur); split; congruence.
Qed.

(** The group [.*?results.*?] ends at a position exactly when the text
    read holds "results" on the line of the position. *)
Lemma results_alt_ends before text rest :
  Re.ends_at (String.length rest) results_alt (Re.Cursor before (text ++ rest)) = true <->
  exists g1 g2, text = g1 ++ "results" ++ g2 /\ one_line g1 /\ one_line g2.
Proof.
  rewrite ends_at_true. unfold results_alt. cbn [Re.run_items Re.run_item Re.behind Re.ahead].
  rewrite lazy_loop_some. split.
  - intros (g1 & r1 & Heq & Hg1 & H).
    apply (run_literal_items "results" [Re.Lazy Re.AnyChar]) in H.
    destruct H as (b & -> & H).
    cbn [Re.run_items Re.run_item Re.behind Re.ahead] in H.
    apply lazy_loop_some in H. destruct H as (g2 & r2 & -> & Hg2 & H).
    cbn [Re.ahead] in H.
    destruct (Nat.eqb_spec (String.length r2) (String.length rest)) as [Hlen|]; [|congruence].
    exists g1, g2. rewrite <- !append_assoc in Heq.
    destruct (append_same_tail _ _ _ _ Heq (eq_sym Hlen)) as [-> _].
    rewrite !append_assoc. repeat split; now apply one_line_accepted.
  - intros (g1 & g2 & -> & Hg1 & Hg2).
    exists g1, ("results" ++ g2 ++ rest). split; [now rewrite !append_assoc|].
    split; [now apply one_line_accepted|].
    apply (run_literal_items "results" [Re.Lazy Re.AnyChar]).
    exists (g2 ++ rest). split; [reflexivity|].
    cbn [Re.run_items Re.run_item Re.behind Re.ahead].
    apply lazy_loop_some. exists g2, rest. split; [reflexivity|].
    split; [now apply one_line_accepted|].
    cbn [Re.ahead]. rewrite Nat.eqb_refl. discriminate.
Qed.

Lemma behind_from_back alts stop a before after :
  Re.behind_from alts stop before (a ++ after) = true ->
  Re.behind_from alts stop (rev_onto a before) after = true.
Proof.
  revert before; induction a as [|c a IH]; intros before H; [exact H|].
  cbn [rev_onto]. apply IH. cbn [Re.behind_from]. apply orb_true_iff. right. exact H.
Qed.

(** The look-behind tries every start at or before the position. *)
Lemma behind_from_true alts stop before after :
  Re.behind_from alts stop before after = true <->
  exists a before0,
    before = rev_onto a before0 /\
    existsb (fun alt => Re.ends_at stop alt (Re.Cursor before0 (a ++ after))) alts = true.
Proof.
  split.
  - revert after; induction before as [|c before IH]; intros after;
      cbn [Re.behind_from]; rewrite orb_true_iff.
    + intros [H|H]; [|discriminate]. now exists "", "".
    + intros [H|H]; [now exists "", (String c before)|].
      destruct (IH _ H) as (a & before0 & -> & Hends).
      exists (a ++ String c ""), before0. split.
      * now rewrite rev_onto_app.
      * now rewrite append_assoc.
  - intros (a & before0 & -> & H). apply behind_from_back.
    destruct before0; cbn [Re.behind_from]; now rewrite H.
Qed.

(** The negative look-behind of [LOE.filter] fails exactly when
    "results" stands before the position, on its line. *)
Lemma looks_behind_results a rest :
  Re.looks_behind [results_alt] (Re.Cursor (rev_onto a "") rest) = true <->
  results_before_on_line a.
Proof.
  unfold Re.looks_behind, results_before_on_line. cbn [Re.behind Re.ahead].
  rewrite behind_from_true. split.
  - intros (a' & before0 & Hrev & H). cbn [existsb] in H. rewrite orb_false_r in H.
    apply results_alt_ends in H. destruct H as (g1 & g2 & -> & _ & Hg2).
    exists (rev_onto before0 "" ++ g1), g2. split; [|exact Hg2].
    rewrite (rev_onto_split _ _ _ Hrev). now rewrite !append_assoc.
  - intros (a1 & gap & -> & Hgap).
    exists ("results" ++ gap), (rev_onto a1 ""). split; [now rewrite rev_onto_app|].
    cbn [existsb]. rewrite orb_false_r. apply results_alt_ends.
    exists "", gap. repeat split; [|exact Hgap]. intros [|d x] c y Heq; discriminate.
Qed.

Lemma compile_filter : Re.compile LOE.FILTER_REGEX = Some filter_pattern.
Proof. reflexivity. Qed.

Lemma run_word {A : Type} (w : string) (k : Re.cursor -> option A) before after :
  Re.run_nodes (literal w) k (Re.Cursor before after) <> None <->
  exists b, after = w ++ b /\ k (Re.Cursor (rev_onto w before) b) <> None.
Proof. rewrite <- (app_nil_r (literal w)). apply run_literal. Qed.

Lemma match_word_at w a rest :
  Re.run_nodes (literal w) Some (Re.Cursor (rev_onto a "") rest) <> None <->
  exists b, rest = w ++ b.
Proof.
  rewrite run_word. split; intros (b & Hb); [destruct Hb as [Hb _]; eauto|].
  exists b. split; [assumption | discriminate].
Qed.

(** The positions at which the pattern of [LOE.filter] has a match. *)
Lemma filter_pattern_found name :
  Re.found filter_pattern "" name = true <->
  (occurs "introduction" name \/ occurs "background" name \/ occurs "reference" name \/
   exists a b, name = a ++ "discussion" ++ b /\ ~ results_before_on_line a).
Proof.
  rewrite found_true. unfold occurs. split.
  - intros (a & rest & -> & H). apply match_at_some in H.
    destruct H as (alt & Hin & H). unfold filter_pattern in Hin.
    destruct Hin as [<-|[<-|[<-|[<-|[]]]]].
    + apply match_word_at in H. destruct H as [b ->]. left. now exists a, b.
    + right; right; right. cbn [Re.run_nodes] in H.
      destruct (Re.looks_behind [results_alt] _) eqn:E; [congruence|].
      apply match_word_at in H. destruct H as [b ->]. exists a, b. split; [reflexivity|].
      intros Hr. apply (proj2 (looks_behind_results a ("discussion" ++ b))) in Hr.
      congruence.
    + apply match_word_at in H. destruct H as [b ->]. right; left. now exists a, b.
    + apply match_word_at in H. destruct H as [b ->]. right; right; left. now exists a, b.
  - intros [(a & b & ->)|[(a & b & ->)|[(a & b & ->)|(a & b & -> & Hn)]]].
    + exists a, ("introduction" ++ b). split; [reflexivity|]. apply match_at_some.
      exists (literal "introduction"). split; [now left|]. apply match_word_at. now exists b.
    + exists a, ("background" ++ b). split; [reflexivity|]. apply match_at_some.
      exists (literal "background"). split; [right; right; now left|].
      apply match_word_at. now exists b.
    + exists a, ("reference" ++ b). split; [reflexivity|]. apply match_at_some.
      exists (literal "reference"). split; [right; right; right; now left|].
      apply match_word_at. now exists b.
    + exists a, ("discussion" ++ b). split; [reflexivity|]. apply match_at_some.
      exists (Re.NotBehind [results_alt] :: literal "discussion"). split; [right; now left|].
      cbn [Re.run_nodes].
      destruct (Re.looks_behind [results_alt] _) eqn:E.
      * apply looks_behind_results in E. contradiction.
      * apply match_word_at. now exists b.
Qed.

Lemma filter_unfold name : LOE.filter name = Ok (negb (Re.found filter_pattern "" name)).
Proof. unfold LOE.filter, Re.search. rewrite compile_filter. reflexivity. Qed.

End SectionFilter.

(* ===================================================================== *)
(** * Whole phrases and the gate *)
(* ===================================================================== *)

Section Phrases.




Lemma regex_truthy (t : string) (terms : list string) : Py.truthy (regex (t :: terms)) = true.
Proof. unfold regex, Py.join. cbn [map String.concat]. destruct (map _ terms); reflexivity. Qed.


Lemma occurs_nonempty (token s : string) : token <> "" -> occurs token s -> s <> "".
Proof.
  intros Ht (a & b & ->). destruct a; simpl; [|discriminate].
  destruct token; [congruence | discriminate].
Qed.

Lemma lower_nonempty (s : string) : Py.lower s <> "" -> s <> "".
Proof. destruct s; [auto | discriminate]. Qed.

Lemma field_mentions (o : option string) (token : string) :
  token <> "" ->
  match o with
  | Some n => Py.truthy n && Py.contains token (Py.lower n)
  | None => false
  end = true <->
  exists n, o = Some n /\ occurs token (Py.lower n).
Proof.
  intros Ht. destruct o as [n|].
  - rewrite andb_true_iff, truthy_true_iff, contains_true_iff. split.
    + intros [_ H]. now exists n.
    + intros (n' & [= <-] & H). split; [|exact H].
      eapply lower_nonempty, occurs_nonempty; eauto.
  - split; [discriminate | intros (n & H & _); discriminate].
Qed.

Lemma find_true (s : LOE.section) (token : string) :
  token <> "" -> LOE.find s token = true <-> mentions s token.
Proof.
  intros Ht. destruct s as [[name text] x]. unfold LOE.find, mentions.
  rewrite orb_true_iff, !(field_mentions _ _ Ht). reflexivity.
Qed.

(** The gate is open exactly when some section mentions one of the two
    tokens, whatever the name of that section. *)
Lemma accept_true (sections : list LOE.section) :
  LOE.accept sections = true <->
  exists s, In s sections /\ (mentions s "method" \/ mentions s "result").
Proof.
  unfold LOE.accept. rewrite existsb_exists. split.
  - intros (s & Hin & H). exists s. split; [exact Hin|].
    apply orb_true_iff in H. destruct H as [H|H]; [left | right];
      (apply find_true; [discriminate | exact H]).
  - intros (s & Hin & H). exists s. split; [exact Hin|]. apply orb_true_iff.
    destruct H as [H|H]; [left | right]; (apply find_true; [discriminate | exact H]).
Qed.

Lemma title_items_source (sections : list LOE.section) (t : option string) :
  In t (LOE.title_items sections) -> exists name x, In (name, t, x) sections.
Proof.
  unfold LOE.title_items. rewrite in_flat_map. intros ([[name text] x] & Hin & H).
  destruct name as [n|]; [|destruct H].
  destruct (Py.truthy n && (Py.lower n =? "title")%string); [|destruct H].
  destruct H as [<-|[]]. eauto.
Qed.

Lemma kept_items_source (sections : list LOE.section) items (t : option string) :
  LOE.kept_items sections = Ok items -> In t items ->
  exists name x, In (name, t, x) sections.
Proof.
  revert items; induction sections as [|[[name text] x] sections IH]; intros items.
  - intros [= <-] [].
  - cbn [LOE.kept_items].
    destruct (match name with
              | Some n => if negb (Py.truthy n) then Ok true else LOE.filter (Py.lower n)
              | None => Ok true
              end) as [keep|e]; cbn [Py.bind]; [|discriminate].
    destruct (LOE.kept_items sections) as [tail|e]; cbn [Py.bind]; [|discriminate].
    intros [= <-] Hin.
    assert (Htail : In t tail -> exists name0 x0, In (name0, t, x0) ((name, text, x) :: sections)).
    { intros H. destruct (IH tail eq_refl H) as (n0 & x0 & H0). exists n0, x0. now right. }
    destruct keep; [|auto]. destruct Hin as [<-|Hin]; [|auto].
    exists name, x. now left.
Qed.

Lemma all_str_none (items : list (option string)) : Py.all_str items = None -> In None items.
Proof.
  induction items as [|[s|] items IH]; cbn [Py.all_str]; [discriminate| |now left].
  destruct (Py.all_str items); [discriminate|]. intros _. right. auto.
Qed.

End Phrases.

(* ===================================================================== *)
(** * Properties of the labelling pipeline *)
(* ===================================================================== *)

Section Claims.

Variable V : Vocab.

(** C3.  Selection of the best category.  For a list of gated
    per-category results that is not empty, [top] takes the maximum count
    [best]; when [best] is 0 the result is [(0, None)]; otherwise the
    winner is the first index [i] whose count is [best] (every earlier
    count is smaller, so a tie goes to the earlier category) and the
    result is the level [len - i] with the keyword string of that entry.
    The list of categories has 9 entries, so index 0 gives level 9 and
    the last index, 8, gives level 1. *)
Theorem top_first_maximum (ms : list LOE.scored) :
  ms <> [] ->
  Py.len (LOE.CATEGORIES V) = 9 /\
  exists best,
    Py.max (map fst ms) = Ok best /\
    (forall c kw, In (c, kw) ms -> c <= best) /\
    (best = 0 -> LOE.top ms = Ok (0, None)) /\
    (best <> 0 ->
     exists i kw,
       nth_error ms i = Some (best, kw) /\
       (forall j c kw', (j < i)%nat -> nth_error ms j = Some (c, kw') -> c < best) /\
       LOE.top ms = Ok (Py.len ms - Z.of_nat i, kw) /\
       (Py.len ms = Py.len (LOE.CATEGORIES V) ->
        LOE.top ms = Ok (9 - Z.of_nat i, kw) /\
        (i = 0%nat -> LOE.top ms = Ok (9, kw)) /\
        (i = 8%nat -> LOE.top ms = Ok (1, kw)))).
Proof.
  intros Hne. split; [reflexivity|].
  destruct (top_spec ms Hne) as (best & Hmax & Hle & H0 & H1).
  exists best. repeat split; auto.
  intros Hnz. destruct (H1 Hnz) as (i & kw & Hnth & Hmin & Ht).
  exists i, kw. repeat split; auto.
  - rewrite Ht, H. reflexivity.
  - intros ->. rewrite Ht, H. reflexivity.
  - intros ->. rewrite Ht, H. reflexivity.
Qed.


(** C6.  The gate.  When no title pattern has a match and no section
    holds "method" or "result", in any case of the letters, in its name
    or in its text, the gate is closed: the full-text stage leaves the
    label at [(0, None)] without scoring, and what [label] returns is
    what the check of the title for a mathematical or computer model
    makes of [(0, None)]: level 0, or the number of categories with the
    keywords of that check. *)
Theorem acceptance_gate (sections : list LOE.section) (title : string) :
  LOE.title_text sections = Ok title ->
  (forall pat loe, In (pat, loe) LOE.TITLE_REGEX ->
                   LOE.matches (Some pat) title = Ok (0, None)) ->
  (forall s, In s sections -> ~ mentions s "method" /\ ~ mentions s "result") ->
  LOE.accept sections = false /\
  LOE.full_text_stage V sections = Ok (0, None) /\
  LOE.label V sections = LOE.fallback V title (0, None) /\
  (forall level kw,
      LOE.label V sections = Ok (level, kw) ->
      level = 0 \/
      (level = Py.len (LOE.CATEGORIES V) /\
       exists count, LOE.matches (Some LOE.LOOSE_REGEX) title = Ok (count, kw) /\
                     count <> 0)).
Proof.
  intros Htitle Hnone Hquiet.
  assert (Hacc : LOE.accept sections = false).
  { destruct (LOE.accept sections) eqn:E; [|reflexivity].
    apply accept_true in E. destruct E as (s & Hin & H).
    destruct (Hquiet s Hin) as [Hm Hr]. tauto. }
  assert (Hstage : LOE.full_text_stage V sections = Ok (0, None)).
  { unfold LOE.full_text_stage. now rewrite Hacc. }
  assert (Hlabel : LOE.label V sections = LOE.fallback V title (0, None)).
  { unfold LOE.label. rewrite Htitle. cbn [Py.bind].
    rewrite (title_stage_no_hit _ _ Hnone). cbn [Py.bind]. now rewrite Hstage. }
  repeat split; auto.
  intros level kw H. rewrite Hlabel, fallback_returns_label in H.
  injection H as <- <-. now left.
Qed.

(** C8.  Gating by the minimum.  In the scoring of a full text, a
    category whose count is below its minimum is replaced by [(0, None)]
    before [top] is applied, so it cannot win: when the level is not 0,
    the category of that level, at index [9 - level], has a count that
    reaches its minimum, and the keywords returned are its own. *)
Theorem minimum_gating (text : string) (raw : list (Z * option string * Z)) :
  LOE.score_all (LOE.CATEGORIES V) text = Ok raw ->
  map snd raw = map snd (LOE.CATEGORIES V) /\
  (forall count kw minimum,
      In (count, kw, minimum) raw -> count < minimum ->
      LOE.gate (count, kw, minimum) = (0, None)) /\
  (Py.truthy text = true -> LOE.score V text = LOE.top (map LOE.gate raw)) /\
  (forall level kw,
      LOE.score V text = Ok (level, kw) -> level <> 0 ->
      exists count minimum,
        nth_error raw (Z.to_nat (9 - level)) = Some (count, kw, minimum) /\
        minimum <= count).
Proof.
  intros Hraw.
  assert (Hmin : map snd raw = map snd (LOE.CATEGORIES V)).
  { clear -Hraw. revert raw Hraw. generalize (LOE.CATEGORIES V) as cats.
    induction cats as [|[p m] cats IH]; intros raw; cbn [LOE.score_all].
    - intros [= <-]. reflexivity.
    - destruct (LOE.matches (Some p) text) as [[c kw]|e]; cbn [Py.bind]; [|discriminate].
      destruct (LOE.score_all cats text) as [tail|e]; cbn [Py.bind]; [|discriminate].
      intros [= <-]. cbn [map snd]. f_equal. now apply IH. }
  split; [exact Hmin|]. split; [|split].
  - intros count kw minimum _ Hlt. unfold LOE.gate.
    destruct (Z.geb_spec count minimum); [lia | reflexivity].
  - intros Ht. unfold LOE.score. rewrite Ht, Hraw. reflexivity.
  - intros level kw Hs Hnz. unfold LOE.score in Hs.
    destruct (Py.truthy text); [|injection Hs as <- <-; congruence].
    rewrite Hraw in Hs. cbn [Py.bind] in Hs.
    assert (Hlen : List.length raw = 9%nat).
    { rewrite <- (length_map snd raw), Hmin. reflexivity. }
    destruct (top_spec (map LOE.gate raw)) as (best & _ & _ & H0 & H1).
    { destruct raw; [discriminate | cbn; congruence]. }
    destruct (Z.eq_dec best 0) as [E|E].
    { rewrite (H0 E) in Hs. injection Hs as <- <-. congruence. }
    destruct (H1 E) as (i & kw' & Hnth & _ & Ht). rewrite Ht in Hs.
    injection Hs as <- <-. unfold Py.len. rewrite length_map, Hlen.
    assert (Hi : (i < 9)%nat).
    { rewrite <- Hlen, <- (length_map LOE.gate raw). apply nth_error_Some. congruence. }
    replace (Z.to_nat (9 - (Z.of_nat 9 - Z.of_nat i))) with i by lia.
    rewrite nth_error_map in Hnth.
    destruct (nth_error raw i) as [[[c k] m]|]; [|discriminate].
    cbn [option_map LOE.gate] in Hnth.
    destruct (Z.geb_spec c m) as [Hge|Hlt].
    + injection Hnth as -> ->. exists best, m. split; [reflexivity | lia].
    + injection Hnth as Hz _. congruence.
Qed.

(** C9.  The guard of the match counter.  [regex] of no term is the
    empty pattern, and on the empty pattern or on [None] the counter
    returns [(0, None)] for every text, before any search: the search
    itself would find the empty pattern at every position. *)
Theorem empty_pattern_guard :
  regex [] = "" /\
  (forall text, LOE.matches (Some (regex [])) text = Ok (0, None)) /\
  (forall text, LOE.matches None text = Ok (0, None)) /\
  Re.findall_overlapped (regex []) "abc" = Ok [""; ""; ""; ""].
Proof. repeat split. Qed.


End Claims.

Section Defects.

Variable V : Vocab.

(** C1.  The check of the title for a mathematical or computer model.
    For the sections [("title", "A computer model of transmission",
    None)] no title pattern has a match and the gate is closed, and the
    loose pattern finds "computer" once in the title; [label] still
    returns [(0, None)], because the test [not label] is made on the pair
    and not on the level: the last stage returns every label unchanged. *)
Theorem computer_title_is_not_labelled :
  let sections : list LOE.section :=
    [(Some "title", Some "A computer model of transmission", None)] in
  let title := "a computer model of transmission" in
  LOE.title_text sections = Ok title /\
  LOE.title_stage LOE.TITLE_REGEX title = Ok None /\
  LOE.accept sections = false /\
  LOE.matches (Some LOE.LOOSE_REGEX) title = Ok (1, Some "'computer': 1") /\
  LOE.label V sections = Ok (0, None) /\
  (forall text l, LOE.fallback V text l = Ok l).
Proof. repeat split. Qed.

(** C2.  Sections with a missing field.  A missing name is read as no
    name, and [find] reads a missing text as empty; the joins of [label]
    do not: a section named "title" without text, and a section kept for
    the full text without text, make [label] raise TypeError. *)
Theorem missing_text_raises :
  LOE.label V [(Some "title", None, None)] = Raise TypeError /\
  LOE.label V [(Some "methods", None, None)] = Raise TypeError /\
  LOE.label V [(None, Some "methods", None); (None, None, None)] = Raise TypeError /\
  LOE.find (Some "methods", None, None) "result" = false /\
  LOE.find (None, None, None) "method" = false /\
  LOE.label V [(None, None, None)] = Ok (0, None).
Proof. repeat split. Qed.

(** C4.  The shape of the result.  Whenever [label] returns, the level
    is from 0 to 9, the keywords are [None] exactly at level 0, and at
    any other level they are a non-empty string.  [label] does not return
    on every input: it raises TypeError, and nothing else, and only when
    a section has no text; the sections [("methods", None, None)] are
    such an input. *)
Theorem label_result_shape (sections : list LOE.section) :
  (forall level kw,
      LOE.label V sections = Ok (level, kw) ->
      0 <= level <= 9 /\
      (kw = None <-> level = 0) /\
      (level <> 0 -> exists s, kw = Some s /\ s <> "")) /\
  (forall e,
      LOE.label V sections = Raise e ->
      e = TypeError /\ exists name x, In (name, None, x) sections) /\
  LOE.label V [(Some "methods", None, None)] = Raise TypeError.
Proof.
  split; [|split; [|reflexivity]].
  - intros level kw H. apply label_returns_ok in H.
    destruct H as [[= -> ->]|[Hl (s & Hs & Hne)]]; cbn [fst snd] in *.
    + split; [lia|]. split; [split; reflexivity | intros F; congruence].
    + subst kw. split; [lia|]. split; [split; [discriminate | lia] | intros _; eauto].
  - intros e H. split; [exact (label_raises V _ _ H)|].
    unfold LOE.label, LOE.title_text, Py.join_opt in H.
    destruct (Py.all_str (LOE.title_items sections)) as [items|] eqn:Et; cbn [Py.bind] in H.
    + destruct (title_stage_cases LOE.TITLE_REGEX
                  (Py.lower (Py.replace_newlines (Py.join " " items))) compile_title_regex)
        as [(pat & loe & c & k & _ & _ & _ & Hs)|[_ Hs]];
        rewrite Hs in H; cbn [Py.bind] in H; [discriminate|].
      unfold LOE.full_text_stage in H. destruct (LOE.accept sections); [|discriminate].
      unfold LOE.full_text, Py.join_opt in H.
      destruct (kept_items_returns sections) as [kept Hk]. rewrite Hk in H.
      cbn [Py.bind] in H.
      destruct (Py.all_str kept) as [texts|] eqn:Ek; cbn [Py.bind] in H.
      * destruct (score_returns V (Py.lower (Py.replace_newlines (Py.join " " texts))))
          as (l' & Hl & _). rewrite Hl in H. discriminate.
      * eapply kept_items_source; [exact Hk | now apply all_str_none].
    + apply title_items_source. now apply all_str_none.
Qed.

End Defects.

Section FilterRule.

(** C7, as stated, fails on a name with a line feed between "results"
    and "discussion": the name holds "results" before its only
    "discussion", and the filter rejects it. *)
Lemma filter_line_feed_counterexample :
  ~ filter_as_stated ("results" ++ String Py.newline "discussion").
Proof.
  unfold filter_as_stated. intros [H _].
  destruct (H eq_refl) as [Ho|[Ho|[Ho|(a & b & Heq & Hn)]]];
    try (apply contains_true_iff in Ho; vm_compute in Ho; discriminate).
  apply Hn. clear H Hn. cbn in Heq.
  do 8 (destruct a as [|? a]; [discriminate|]; cbn in Heq; injection Heq as <- Heq).
  exists "", (String Py.newline a). reflexivity.
Qed.

(** C7, amended.  The filter rejects a lower-cased name exactly when the
    name holds "introduction", "background" or "reference", or holds an
    occurrence of "discussion" that has no "results" before it on the
    same line (no line feed between the two words); it accepts every
    other name.  So "discussion" is rejected and "results and discussion"
    is accepted. *)
Theorem filter_rule (name : string) :
  (LOE.filter name = Ok false <->
   (occurs "introduction" name \/ occurs "background" name \/ occurs "reference" name \/
    exists a b, name = a ++ "discussion" ++ b /\ ~ results_before_on_line a)) /\
  (LOE.filter name = Ok true <->
   ~ (occurs "introduction" name \/ occurs "background" name \/ occurs "reference" name \/
      exists a b, name = a ++ "discussion" ++ b /\ ~ results_before_on_line a)) /\
  LOE.filter "discussion" = Ok false /\
  LOE.filter "results and discussion" = Ok true.
Proof.
  rewrite filter_unfold, <- filter_pattern_found.
  destruct (Re.found filter_pattern "" name); cbn [negb]; repeat split;
    try congruence; try reflexivity; intros H; try discriminate; exfalso; auto.
Qed.

End FilterRule.

(* ===================================================================== *)
(** * Worked examples *)
(* ===================================================================== *)

Section Examples.

(** The matcher on small inputs: a boundary-wrapped term is not found
    inside a longer word, an optional hyphen matches both spellings, and
    the keyword string lists the matched texts by falling count. *)
Example findall_whole_words :
  Re.findall_overlapped (regex ["cohort"]) "cohort, cohorts and a cohort" =
  Ok ["cohort"; "cohort"].
Proof. reflexivity. Qed.

Example findall_optional_hyphen :
  Re.findall_overlapped "\btime\-?series\b" "time-series timeseries time series" =
  Ok ["time-series"; "timeseries"].
Proof. reflexivity. Qed.

Example matches_keyword_string :
  LOE.matches (Some LOE.LOOSE_REGEX) "a computer forecast by computer" =
  Ok (3, Some "'computer': 2, 'forecast': 1").
Proof. reflexivity. Qed.

(** The title decides before the other sections are read, and no
    section gives [(0, None)]. *)
Example label_title_first :
  LOE.label sample_vocab
    [(Some "title", Some "Randomized control trial of X", None);
     (Some "methods", Some "...result...", None)] =
  Ok (2, Some "'randomized control': 1").
Proof. reflexivity. Qed.

Example label_no_section : LOE.label sample_vocab [] = Ok (0, None).
Proof. reflexivity. Qed.

(** Two categories tie at 2; the first of the list wins, at level 9. *)
Lemma top_first_maximum_witness :
  let ms : list LOE.scored :=
    [(2, Some "'simulation': 2"); (0, None); (0, None); (2, Some "'cohort': 2");
     (2, Some "'cohort': 2"); (2, Some "'cohort': 2"); (0, None); (0, None); (0, None)] in
  ms <> [] /\ LOE.top ms = Ok (9, Some "'simulation': 2").
Proof.
  intros ms. assert (Hne : ms <> []) by discriminate. split; [exact Hne|].
  destruct (top_first_maximum sample_vocab ms Hne) as [_ (best & Hmax & _ & _ & H1)].
  injection Hmax as <-.
  destruct H1 as (i & kw & Hnth & Hmin & _ & Hlen); [discriminate|].
  destruct (Hlen eq_refl) as (_ & H0 & _).
  destruct i as [|i].
  - injection Hnth as <-. exact (H0 eq_refl).
  - exfalso. specialize (Hmin 0%nat 2 _ (Nat.lt_0_succ i) eq_refl). discriminate Hmin.
Defined.


(** No title pattern, no "method", no "result": the gate is closed. *)
Lemma acceptance_gate_witness :
  let sections : list LOE.section :=
    [(Some "title", Some "A computer model of transmission", None);
     (Some "abstract", Some "We simulate an outbreak", None)] in
  LOE.title_text sections = Ok "a computer model of transmission" /\
  LOE.accept sections = false /\
  LOE.label sample_vocab sections = Ok (0, None).
Proof.
  intros sections. split; [reflexivity|].
  destruct (acceptance_gate sample_vocab sections "a computer model of transmission")
    as (Hacc & _ & Hl & _).
  - reflexivity.
  - intros pat loe Hin.
    repeat (destruct Hin as [Heq|Hin]; [injection Heq as <- <-; reflexivity|]).
    destruct Hin.
  - intros s Hin.
    repeat (destruct Hin as [<-|Hin];
            [split; intros Hm; apply find_true in Hm; discriminate|]).
    destruct Hin.
  - split; [exact Hacc | rewrite Hl; reflexivity].
Defined.

(** Three matches of a category whose minimum is 4 do not win against
    one match of a category whose minimum is 1. *)
Lemma minimum_gating_witness :
  let text :=
    "a systematic review, a systematic review and a systematic review of prevalence" in
  let raw : list (Z * option string * Z) :=
    [(0, None, 1); (1, Some "'prevalence': 1", 1); (0, None, 2); (0, None, 2);
     (0, None, 2); (0, None, 2); (0, None, 3); (0, None, 3);
     (3, Some "'systematic review': 3", 4)] in
  LOE.score_all (LOE.CATEGORIES sample_vocab) text = Ok raw /\
  LOE.gate (3, Some "'systematic review': 3", 4) = (0, None) /\
  LOE.score sample_vocab text = Ok (8, Some "'prevalence': 1").
Proof.
  intros text raw. split; [reflexivity|].
  destruct (minimum_gating sample_vocab text raw eq_refl) as (_ & Hg & Hs & _). split.
  - apply (Hg 3 _ 4); [|reflexivity]. do 8 right. now left.
  - rewrite (Hs eq_refl). reflexivity.
Defined.


End Examples.

(* ===================================================================== *)
(** * What a pattern of [regex] finds *)
(* ===================================================================== *)

Section PatternMatches.

Lemma match_at_result (p : Re.pattern) (cur cur' : Re.cursor) :
  Re.match_at p cur = Some cur' ->
  exists alt, In alt p /\ Re.run_nodes alt Some cur = Some cur'.
Proof.
  induction p as [|alt p IH]; cbn [Re.match_at]; [discriminate|].
  destruct (Re.run_nodes alt Some cur) as [c|] eqn:E; cbn [Re.or_else].
  - intros [= <-]. exists alt. split; [now left | exact E].
  - intros H. destruct (IH H) as (alt' & Hin & H'). exists alt'. split; [now right | exact H'].
Qed.

Lemma run_literal_result {A : Type} (w : string) (l : list Re.node)
    (k : Re.cursor -> option A) before after (r : A) :
  Re.run_nodes (literal w ++ l) k (Re.Cursor before after) = Some r ->
  exists b, after = w ++ b /\ Re.run_nodes l k (Re.Cursor (rev_onto w before) b) = Some r.
Proof.
  revert before after; induction w as [|c w IH]; intros before after.
  - cbn [literal app rev_onto]. intros H. now exists after.
  - cbn [literal app Re.run_nodes rev_onto]. unfold Re.run_item, Re.advance.
    cbn [Re.ahead Re.behind]. destruct after as [|d after]; [discriminate|].
    cbn [Re.accepts]. destruct (Ascii.eqb_spec d c) as [->|Hne]; [|discriminate].
    intros H. destruct (IH _ _ H) as (b & -> & H'). now exists b.
Qed.

(** A match of a term between word boundaries reads exactly the term,
    with a boundary at both ends. *)
Lemma phrase_result (w before after : string) (cur' : Re.cursor) :
  Re.run_nodes (phrase w) Some (Re.Cursor before after) = Some cur' ->
  exists b, after = w ++ b /\ cur' = Re.Cursor (rev_onto w before) b /\
            Re.at_boundary (Re.Cursor before after) = true /\
            Re.at_boundary cur' = true.
Proof.
  unfold phrase. cbn [Re.run_nodes Re.run_item].
  destruct (Re.at_boundary (Re.Cursor before after)) eqn:Hb; [|discriminate].
  intros H. apply run_literal_result in H. destruct H as (b & -> & H).
  cbn [Re.run_nodes Re.run_item] in H.
  destruct (Re.at_boundary (Re.Cursor (rev_onto w before) b)) eqn:He; [|discriminate].
  injection H as <-. exists b. auto.
Qed.

Lemma substring_prefix (w b : string) : String.substring 0 (String.length w) (w ++ b) = w.
Proof.
  induction w as [|c w IH]; cbn [String.length append String.substring].
  - destruct b; reflexivity.
  - now rewrite IH.
Qed.

Lemma matched_prefix (w b before before' : string) :
  Re.matched (Re.Cursor before (w ++ b)) (Re.Cursor before' b) = w.
Proof.
  unfold Re.matched. cbn [Re.ahead]. rewrite length_append.
  replace (String.length w + String.length b - String.length b)%nat
    with (String.length w) by lia.
  apply substring_prefix.
Qed.

(** Every text reported by [scan] is the match at some position. *)
Lemma scan_in (p : Re.pattern) (before after m : string) :
  In m (Re.scan p before after) ->
  exists a rest cur',
    after = a ++ rest /\
    Re.match_at p (Re.Cursor (rev_onto a before) rest) = Some cur' /\
    m = Re.matched (Re.Cursor (rev_onto a before) rest) cur'.
Proof.
  revert before; induction after as [|c after IH]; intros before; cbn [Re.scan].
  - rewrite app_nil_r. destruct (Re.match_at p _) as [cur'|] eqn:E; [|intros []].
    intros [<-|[]]. exists "", "", cur'. auto.
  - intros H. apply in_app_or in H. destruct H as [H|H].
    + destruct (Re.match_at p _) as [cur'|] eqn:E; [|destruct H].
      destruct H as [<-|[]]. exists "", (String c after), cur'. auto.
    + destruct (IH _ H) as (a & rest & cur' & -> & Hm & ->).
      exists (String c a), rest, cur'. auto.
Qed.


(** The matches of a pattern of [regex]: each is a lower-cased term that
    stands in the text between two word boundaries. *)
Lemma regex_scan_in (t : string) (terms : list string) (text m : string) :
  In m (Re.scan (map (fun term => phrase (Py.lower term)) (t :: terms)) "" text) ->
  exists term a b,
    In term (t :: terms) /\ m = Py.lower term /\ text = a ++ m ++ b /\
    Re.at_boundary (Re.Cursor (rev_onto a "") (m ++ b)) = true /\
    Re.at_boundary (Re.Cursor (rev_onto m (rev_onto a "")) b) = true.
Proof.
  intros H. apply scan_in in H. destruct H as (a & rest & cur' & -> & Hm & ->).
  apply match_at_result in Hm. destruct Hm as (alt & Hin & Hrun).
  apply in_map_iff in Hin. destruct Hin as (term & <- & Hin).
  apply phrase_result in Hrun. destruct Hrun as (b & -> & -> & Hb1 & Hb2).
  exists term, a, b. rewrite matched_prefix. auto.
Qed.

End PatternMatches.

Section PatternProperties.

(** X1.  The patterns of [regex] always compile, whatever characters the
    terms hold: every term becomes one alternative that reads the
    lower-cased term literally between two word boundaries, and the
    pattern is the empty string only for the empty list of terms. *)
Theorem regex_terms_are_literal (terms : list string) :
  Re.compile (regex terms) =
  Some (match terms with
        | [] => [[]]
        | _ => map (fun term => phrase (Py.lower term)) terms
        end) /\
  (regex terms = "" <-> terms = []).
Proof.
  split; [apply compile_regex|]. split.
  - destruct terms as [|t terms]; [reflexivity|]. intros H.
    pose proof (regex_truthy t terms) as Ht. rewrite H in Ht. discriminate.
  - intros ->. reflexivity.
Qed.

(** X2.  The search with a pattern of [regex] reports nothing but terms:
    every text found is the lower-cased form of one of the terms and
    occurs in the searched text. *)
Theorem regex_finds_only_terms (terms : list string) (text : string) (found : list string) :
  terms <> [] ->
  Re.findall_overlapped (regex terms) text = Ok found ->
  forall m, In m found ->
            exists term, In term terms /\ m = Py.lower term /\ occurs m text.
Proof.
  intros Hne Hf m Hin. destruct terms as [|t terms]; [congruence|].
  unfold Re.findall_overlapped in Hf. rewrite compile_regex in Hf. injection Hf as <-.
  apply regex_scan_in in Hin. destruct Hin as (term & a & b & Hterm & Hm & Ht & _).
  exists term. repeat split; auto. now exists a, b.
Qed.



End PatternProperties.

(* ===================================================================== *)
(** * The counts behind the keyword string *)
(* ===================================================================== *)

Section KeywordCounts.

Lemma count_key_keys (k : string) (acc : list (string * Z)) (key : string) :
  In key (map fst (Py.count_key k acc)) <-> key = k \/ In key (map fst acc).
Proof.
  induction acc as [|[k' m] acc IH]; cbn [Py.count_key map fst In].
  - intuition congruence.
  - destruct (String.eqb_spec k' k) as [->|Hne]; cbn [map fst In].
    + intuition congruence.
    + rewrite IH. intuition congruence.
Qed.

Lemma count_key_NoDup (k : string) (acc : list (string * Z)) :
  NoDup (map fst acc) -> NoDup (map fst (Py.count_key k acc)).
Proof.
  induction acc as [|[k' m] acc IH]; cbn [Py.count_key map fst]; intros H.
  - constructor; [intros [] | constructor].
  - inversion H as [|? ? Hnot Hrest]; subst.
    destruct (String.eqb_spec k' k) as [->|Hne]; cbn [map fst].
    + constructor; assumption.
    + constructor; [|auto]. rewrite count_key_keys. intros [->|Hin]; [congruence | auto].
Qed.

Lemma count_key_other (k : string) (acc : list (string * Z)) (key : string) (n : Z) :
  key <> k -> In (key, n) (Py.count_key k acc) -> In (key, n) acc.
Proof.
  intros Hne. induction acc as [|[k' m] acc IH]; cbn [Py.count_key In].
  - intros [[= <- _]|[]]. congruence.
  - destruct (String.eqb_spec k' k) as [->|Hk]; cbn [In].
    + intros [[= <- _]|H]; [congruence | auto].
    + intros [H|H]; auto.
Qed.

Lemma count_key_same (k : string) (acc : list (string * Z)) (n : Z) :
  NoDup (map fst acc) -> In (k, n) (Py.count_key k acc) ->
  In (k, n - 1) acc \/ (n = 1 /\ ~ In k (map fst acc)).
Proof.
  induction acc as [|[k' m] acc IH]; cbn [Py.count_key map fst In]; intros Hnd.
  - intros [[= <-]|[]]. right. split; [reflexivity | intros []].
  - inversion Hnd as [|? ? Hnot Hrest]; subst.
    destruct (String.eqb_spec k' k) as [->|Hk]; cbn [In].
    + intros [[= <-]|H].
      * left. left. f_equal. lia.
      * exfalso. apply Hnot. change k with (fst (k, n)). now apply in_map.
    + intros [[= E _]|H]; [congruence|].
      destruct (IH Hrest H) as [Hin|[-> Hout]]; [left; now right|].
      right. split; [reflexivity|]. intros [E|Hin]; [congruence | auto].
Qed.

Lemma count_key_total (k : string) (acc : list (string * Z)) :
  total_count (Py.count_key k acc) = total_count acc + 1.
Proof.
  induction acc as [|[k' m] acc IH]; cbn [Py.count_key total_count fold_right snd]; [lia|].
  destruct (String.eqb_spec k' k); cbn [total_count fold_right snd].
  - fold (total_count acc). lia.
  - fold (total_count (Py.count_key k acc)) (total_count acc). lia.
Qed.

(** The counter after the items [seen] and then [items], when [acc] is
    the counter after [seen]. *)
Lemma Counter_fold (items seen : list string) (acc : list (string * Z)) :
  NoDup (map fst acc) ->
  (forall key, In key (map fst acc) <-> In key seen) ->
  (forall key n, In (key, n) acc -> n = Z.of_nat (count_occ string_dec seen key)) ->
  total_count acc = Py.len seen ->
  let counts := fold_left (fun counts key => Py.count_key key counts) items acc in
  NoDup (map fst counts) /\
  (forall key, In key (map fst counts) <-> In key (seen ++ items)) /\
  (forall key n, In (key, n) counts ->
                 n = Z.of_nat (count_occ string_dec (seen ++ items) key)) /\
  total_count counts = Py.len (seen ++ items).
Proof.
  revert seen acc; induction items as [|k items IH]; intros seen acc Hnd Hkeys Hocc Htot.
  - cbn [fold_left]. rewrite app_nil_r. auto.
  - cbn [fold_left]. cbv zeta.
    replace (seen ++ k :: items)%list with ((seen ++ [k]) ++ items)%list
      by (rewrite <- app_assoc; reflexivity).
    apply IH.
    + now apply count_key_NoDup.
    + intros key. rewrite count_key_keys, in_app_iff, Hkeys. cbn [In]. intuition congruence.
    + intros key n Hin. rewrite count_occ_app. cbn [count_occ].
      destruct (string_dec k key) as [->|Hne].
      * destruct (count_key_same _ _ _ Hnd Hin) as [Hprev|[-> Hout]].
        -- apply Hocc in Hprev. lia.
        -- rewrite Hkeys in Hout. apply (count_occ_not_In string_dec) in Hout.
           rewrite Hout. reflexivity.
      * apply count_key_other in Hin; [|congruence]. apply Hocc in Hin. lia.
    + rewrite count_key_total, Htot. unfold Py.len. rewrite length_app. cbn. lia.
Qed.

Lemma insert_desc_perm (x : string * Z) (l : list (string * Z)) :
  Permutation (Py.insert_desc x l) (x :: l).
Proof.
  induction l as [|y l IH]; cbn [Py.insert_desc]; [reflexivity|].
  destruct (snd y <=? snd x); [reflexivity|].
  rewrite IH. apply perm_swap.
Qed.

Lemma sorted_perm (l : list (string * Z)) : Permutation (Py.sorted_by_count_desc l) l.
Proof.
  induction l as [|x l IH]; cbn [Py.sorted_by_count_desc fold_right]; [reflexivity|].
  fold (Py.sorted_by_count_desc l). rewrite insert_desc_perm. now constructor.
Qed.

Lemma insert_desc_sorted (x : string * Z) (l : list (string * Z)) :
  StronglySorted (fun a b => snd b <= snd a) l ->
  StronglySorted (fun a b => snd b <= snd a) (Py.insert_desc x l).
Proof.
  induction l as [|y l IH]; cbn [Py.insert_desc]; intros Hs.
  - constructor; constructor.
  - inversion Hs as [|? ? Hrest Hall]; subst.
    destruct (Z.leb_spec (snd y) (snd x)) as [Hle|Hgt].
    + constructor; [exact Hs|]. constructor; [exact Hle|].
      eapply Forall_impl; [|exact Hall]. cbv beta. intros z Hz. lia.
    + constructor; [auto|].
      eapply Permutation_Forall; [symmetry; apply insert_desc_perm|].
      constructor; [lia | exact Hall].
Qed.

Lemma sorted_sorted (l : list (string * Z)) :
  StronglySorted (fun a b => snd b <= snd a) (Py.sorted_by_count_desc l).
Proof.
  induction l as [|x l IH]; cbn [Py.sorted_by_count_desc fold_right]; [constructor|].
  apply insert_desc_sorted. exact IH.
Qed.

Lemma total_count_perm (l l' : list (string * Z)) :
  Permutation l l' -> total_count l = total_count l'.
Proof.
  induction 1; cbn [total_count fold_right] in *;
    repeat match goal with
           | |- context [fold_right ?f 0 ?l] => change (fold_right f 0 l) with (total_count l)
           end; lia.
Qed.

(** X5.  The counts that the keyword string is written from (line 186):
    every distinct matched text is listed once, with the number of times
    it was matched; the counts add up to the number of matches and stand
    in falling order. *)
Theorem keyword_counts (found : list string) :
  let counts := Py.sorted_by_count_desc (Py.Counter found) in
  NoDup (map fst counts) /\
  (forall key, In key (map fst counts) <-> In key found) /\
  (forall key n, In (key, n) counts ->
                 n = Z.of_nat (count_occ string_dec found key)) /\
  total_count counts = Py.len found /\
  StronglySorted (fun a b => snd b <= snd a) counts.
Proof.
  cbv zeta.
  destruct (Counter_fold found [] []) as (Hnd & Hkeys & Hocc & Htot);
    [constructor | intros key; reflexivity | intros key n [] | reflexivity |].
  cbn [app] in *. fold (Py.Counter found) in *.
  pose proof (sorted_perm (Py.Counter found)) as Hp.
  split; [|split; [|split; [|split]]].
  - eapply Permutation_NoDup; [|exact Hnd]. symmetry. now apply Permutation_map.
  - intros key. rewrite <- Hkeys. split; apply Permutation_in.
    + now apply Permutation_map.
    + symmetry. now apply Permutation_map.
  - intros key n Hin. apply Hocc. eapply Permutation_in; [exact Hp | exact Hin].
  - rewrite (total_count_perm _ _ Hp). exact Htot.
  - apply sorted_sorted.
Qed.

End KeywordCounts.

(* ===================================================================== *)
(** * Characters and case *)
(* ===================================================================== *)

Section Case.


Lemma lower_char_idempotent (c : ascii) : Py.lower_char (Py.lower_char c) = Py.lower_char c.
Proof. destruct c as [[] [] [] [] [] [] [] []]; reflexivity. Qed.

Lemma map_chars_append (f : ascii -> ascii) (a b : string) :
  Py.map_chars f (a ++ b) = Py.map_chars f a ++ Py.map_chars f b.
Proof. induction a as [|c a IH]; cbn; [reflexivity | now rewrite IH]. Qed.

Lemma map_chars_split (f : ascii -> ascii) (s x y : string) (c : ascii) :
  Py.map_chars f s = x ++ String c y -> exists c0, c = f c0.
Proof.
  revert x; induction s as [|d s IH]; intros x; cbn [Py.map_chars].
  - destruct x; discriminate.
  - destruct x as [|e x]; cbn [append].
    + intros [= <- _]. now exists d.
    + intros [= _ H]. eauto.
Qed.

Lemma lower_idempotent (s : string) : Py.lower (Py.lower s) = Py.lower s.
Proof.
  unfold Py.lower. induction s as [|c s IH]; cbn [Py.map_chars]; [reflexivity|].
  now rewrite lower_char_idempotent, IH.
Qed.

Lemma truthy_lower (s : string) : Py.truthy (Py.lower s) = Py.truthy s.
Proof. destruct s; reflexivity. Qed.


Lemma find_lowered (name text x y : option string) (token : string) :
  LOE.find (name, text, x) token =
  LOE.find (option_map Py.lower name, option_map Py.lower text, y) token.
Proof.
  unfold LOE.find. destruct name as [n|], text as [t|]; cbn [option_map];
    now rewrite ?truthy_lower, ?lower_idempotent.
Qed.

End Case.

Section SmallProperties.

(** X6.  [top] raises exactly on the empty list, and then ValueError (the
    maximum of no count); on any other list it returns a level between 0
    and the length of the list. *)
Theorem top_raises_on_empty (ms : list LOE.scored) :
  (forall e, LOE.top ms = Raise e <-> ms = [] /\ e = ValueError) /\
  (forall level kw, LOE.top ms = Ok (level, kw) -> 0 <= level <= Py.len ms).
Proof.
  destruct ms as [|m ms].
  - split.
    + intros e. cbn. split; [intros [= <-]; auto | intros [_ ->]; reflexivity].
    + intros level kw. cbn. discriminate.
  - destruct (top_spec (m :: ms)) as (best & _ & _ & H0 & H1); [discriminate|].
    destruct (Z.eq_dec best 0) as [E|E].
    + rewrite (H0 E). split.
      * intros e. split; [discriminate | intros [H _]; discriminate].
      * intros level kw [= <- _]. unfold Py.len. lia.
    + destruct (H1 E) as (i & kw' & Hnth & _ & Ht). rewrite Ht. split.
      * intros e. split; [discriminate | intros [H _]; discriminate].
      * intros level kw Heq.
        assert (Hl : level = Py.len (m :: ms) - Z.of_nat i) by congruence.
        assert (i < List.length (m :: ms))%nat by (apply nth_error_Some; congruence).
        unfold Py.len in *. lia.
Qed.


(** X8.  The gate depends on the set of sections only: adding sections
    never closes it (when every section of one list is in another, an
    open gate on the first is open on the second), and two lists with
    the same sections, in any order, have the same gate. *)
Theorem accept_monotone (sections sections' : list LOE.section) :
  ((forall s, In s sections -> In s sections') ->
   LOE.accept sections = true -> LOE.accept sections' = true) /\
  ((forall s, In s sections <-> In s sections') ->
   LOE.accept sections = LOE.accept sections').
Proof.
  assert (Hmono : forall a b : list LOE.section,
             (forall s, In s a -> In s b) -> LOE.accept a = true -> LOE.accept b = true).
  { intros a b Hincl H. apply accept_true in H. destruct H as (s & Hin & Hs).
    apply accept_true. exists s. auto. }
  split; [apply Hmono|].
  intros Hsame.
  destruct (LOE.accept sections) eqn:E1, (LOE.accept sections') eqn:E2; try reflexivity.
  - rewrite (Hmono sections sections') in E2; [discriminate | apply Hsame | exact E1].
  - rewrite (Hmono sections' sections) in E1; [discriminate | apply Hsame | exact E2].
Qed.

(** X9.  The filter never raises, and text added after a rejected name
    does not rescue it: when a name is rejected, so is the name followed
    by any text. *)
Theorem filter_rejection_extends (name rest : string) :
  (exists keep, LOE.filter name = Ok keep) /\
  (LOE.filter name = Ok false -> LOE.filter (name ++ rest) = Ok false).
Proof.
  split; [rewrite filter_unfold; eauto|].
  rewrite !filter_unfold. intros [= H]. apply negb_false_iff in H.
  apply filter_pattern_found in H. f_equal. apply negb_false_iff.
  apply filter_pattern_found.
  assert (Hocc : forall w, occurs w name -> occurs w (name ++ rest)).
  { intros w (a & b & ->). exists a, (b ++ rest). now rewrite !append_assoc. }
  destruct H as [H|[H|[H|(a & b & -> & Hn)]]]; auto.
  right; right; right. exists a, (b ++ rest). split; [now rewrite !append_assoc | exact Hn].
Qed.

Lemma map_chars_compose (f g : ascii -> ascii) (s : string) :
  Py.map_chars f (Py.map_chars g s) = Py.map_chars (fun c => f (g c)) s.
Proof. induction s as [|c s IH]; cbn [Py.map_chars]; [reflexivity | now rewrite IH]. Qed.

Lemma normalised_char (c : ascii) :
  Py.lower_char (if (c =? Py.newline)%char then " "%char else c) <> Py.newline /\
  Py.is_upper (Py.lower_char (if (c =? Py.newline)%char then " "%char else c)) = false.
Proof. destruct c as [[] [] [] [] [] [] [] []]; split; (discriminate || reflexivity). Qed.

Lemma normalised_is_normal (s : string) : normal_text (Py.lower (Py.replace_newlines s)).
Proof.
  intros a c b H. unfold Py.lower, Py.replace_newlines in H.
  rewrite map_chars_compose in H. apply map_chars_split in H. destruct H as [c0 ->].
  apply normalised_char.
Qed.

(** X10.  The texts that the patterns are run on are normalised: the
    title text and the full text hold no line feed and no upper-case
    letter. *)
Theorem searched_text_is_normal (sections : list LOE.section) (text : string) :
  LOE.title_text sections = Ok text \/ LOE.full_text sections = Ok text ->
  normal_text text.
Proof.
  unfold LOE.title_text, LOE.full_text. intros [H|H].
  - destruct (Py.join_opt " " (LOE.title_items sections)) as [joined|]; [|discriminate].
    injection H as <-. apply normalised_is_normal.
  - destruct (LOE.kept_items sections) as [items|]; [|discriminate]. cbn [Py.bind] in H.
    destruct (Py.join_opt " " items) as [joined|]; [|discriminate].
    injection H as <-. apply normalised_is_normal.
Qed.

End SmallProperties.

(* ===================================================================== *)
(** * Sections that do not matter *)
(* ===================================================================== *)

Section Sections.

Variable V : Vocab.

Lemma title_items_app (a b : list LOE.section) :
  LOE.title_items (a ++ b) = (LOE.title_items a ++ LOE.title_items b)%list.
Proof. unfold LOE.title_items. apply flat_map_app. Qed.

Lemma accept_app (a b : list LOE.section) :
  LOE.accept (a ++ b) = LOE.accept a || LOE.accept b.
Proof. unfold LOE.accept. apply existsb_app. Qed.

Lemma kept_items_app (a b : list LOE.section) :
  LOE.kept_items (a ++ b) =
  (x <- LOE.kept_items a ;; y <- LOE.kept_items b ;; Ok (x ++ y)%list).
Proof.
  induction a as [|[[name text] x] a IH]; cbn [app LOE.kept_items].
  - cbn [Py.bind]. destruct (LOE.kept_items b); reflexivity.
  - rewrite IH.
    destruct (match name with
              | Some n => if negb (Py.truthy n) then Ok true else LOE.filter (Py.lower n)
              | None => Ok true
              end) as [keep|e]; cbn [Py.bind]; [|reflexivity].
    destruct (LOE.kept_items a) as [ka|e]; cbn [Py.bind]; [|reflexivity].
    destruct (LOE.kept_items b) as [kb|e]; cbn [Py.bind]; [|reflexivity].
    destruct keep; reflexivity.
Qed.

Lemma label_depends_on (sections sections' : list LOE.section) :
  LOE.title_text sections = LOE.title_text sections' ->
  LOE.accept sections = LOE.accept sections' ->
  LOE.full_text sections = LOE.full_text sections' ->
  LOE.label V sections = LOE.label V sections'.
Proof.
  intros Ht Ha Hf. unfold LOE.label, LOE.full_text_stage. now rewrite Ht, Ha, Hf.
Qed.

(** X11.  A section that is left out of the full text, is not a title
    and mentions neither "method" nor "result" has no effect: the label
    is the same with and without it, whatever its text (even a missing
    one). *)
Theorem filtered_section_is_ignored (pre post : list LOE.section)
    (n : string) (text x : option string) :
  n <> "" ->
  Py.lower n <> "title" ->
  LOE.filter (Py.lower n) = Ok false ->
  ~ mentions (Some n, text, x) "method" ->
  ~ mentions (Some n, text, x) "result" ->
  LOE.label V (pre ++ (Some n, text, x) :: post) = LOE.label V (pre ++ post).
Proof.
  intros Hn Htitle Hfilter Hm Hr.
  assert (Htruthy : Py.truthy n = true) by now apply truthy_true_iff.
  apply label_depends_on.
  - unfold LOE.title_text. rewrite !title_items_app.
    change ((Some n, text, x) :: post) with ([(Some n, text, x)] ++ post)%list.
    rewrite title_items_app. unfold LOE.title_items at 2. cbn [flat_map].
    rewrite Htruthy. destruct (String.eqb_spec (Py.lower n) "title"); [contradiction|].
    reflexivity.
  - rewrite !accept_app.
    change ((Some n, text, x) :: post) with ([(Some n, text, x)] ++ post)%list.
    rewrite accept_app. unfold LOE.accept at 2. cbn [existsb].
    destruct (LOE.find (Some n, text, x) "method") eqn:E1.
    { apply find_true in E1; [contradiction | discriminate]. }
    destruct (LOE.find (Some n, text, x) "result") eqn:E2.
    { apply find_true in E2; [contradiction | discriminate]. }
    reflexivity.
  - unfold LOE.full_text. rewrite !kept_items_app.
    change ((Some n, text, x) :: post) with ([(Some n, text, x)] ++ post)%list.
    rewrite kept_items_app. cbn [LOE.kept_items]. rewrite Htruthy. cbn [negb].
    rewrite Hfilter. cbn [Py.bind app].
    destruct (LOE.kept_items pre); cbn [Py.bind]; [|reflexivity].
    destruct (LOE.kept_items post); reflexivity.
Qed.

Lemma lower_append (a b : string) : Py.lower (a ++ b) = Py.lower a ++ Py.lower b.
Proof. apply map_chars_append. Qed.

Lemma join_lower (items : list string) :
  Py.join " " (map Py.lower items) = Py.lower (Py.join " " items).
Proof.
  unfold Py.join. induction items as [|s items IH]; [reflexivity|].
  cbn [map String.concat]. destruct items as [|s' items]; [reflexivity|].
  cbn [map] in *. rewrite IH, !lower_append. reflexivity.
Qed.

Lemma all_str_lower (items : list (option string)) :
  Py.all_str (map (option_map Py.lower) items) = option_map (map Py.lower) (Py.all_str items).
Proof.
  induction items as [|[s|] items IH]; cbn [map option_map Py.all_str]; [reflexivity| |reflexivity].
  rewrite IH. destruct (Py.all_str items); reflexivity.
Qed.

Lemma map_chars_ext (f g : ascii -> ascii) (s : string) :
  (forall c, f c = g c) -> Py.map_chars f s = Py.map_chars g s.
Proof. intros H. induction s as [|c s IH]; cbn [Py.map_chars]; [reflexivity | now rewrite H, IH]. Qed.

Lemma normalise_lowered (s : string) :
  Py.lower (Py.replace_newlines (Py.lower s)) = Py.lower (Py.replace_newlines s).
Proof.
  unfold Py.lower, Py.replace_newlines. rewrite !map_chars_compose.
  apply map_chars_ext. intros c. destruct c as [[] [] [] [] [] [] [] []]; reflexivity.
Qed.

(** The normalised text of a join does not depend on the case of the
    items. *)
Lemma normalised_join_lower (items : list (option string)) :
  (joined <- Py.join_opt " " (map (option_map Py.lower) items) ;;
   Ok (Py.lower (Py.replace_newlines joined))) =
  (joined <- Py.join_opt " " items ;; Ok (Py.lower (Py.replace_newlines joined))).
Proof.
  unfold Py.join_opt. rewrite all_str_lower.
  destruct (Py.all_str items) as [l|]; cbn [option_map Py.bind]; [|reflexivity].
  now rewrite join_lower, normalise_lowered.
Qed.

Lemma title_items_normalise (sections : list LOE.section) :
  LOE.title_items (map normalise sections) =
  map (option_map Py.lower) (LOE.title_items sections).
Proof.
  unfold LOE.title_items.
  induction sections as [|[[name text] x] sections IH]; [reflexivity|].
  cbn [map flat_map normalise]. rewrite IH, map_app. f_equal.
  destruct name as [n|]; cbn [option_map]; [|reflexivity].
  rewrite truthy_lower, lower_idempotent.
  destruct (Py.truthy n && (Py.lower n =? "title")%string); reflexivity.
Qed.

Lemma accept_normalise (sections : list LOE.section) :
  LOE.accept (map normalise sections) = LOE.accept sections.
Proof.
  unfold LOE.accept. induction sections as [|[[name text] x] sections IH]; [reflexivity|].
  cbn [map existsb normalise]. rewrite IH.
  now rewrite <- !(find_lowered name text x None).
Qed.

Lemma kept_items_normalise (sections : list LOE.section) :
  LOE.kept_items (map normalise sections) =
  (items <- LOE.kept_items sections ;; Ok (map (option_map Py.lower) items)).
Proof.
  induction sections as [|[[name text] x] sections IH]; [reflexivity|].
  cbn [map normalise LOE.kept_items]. rewrite IH.
  assert (E : match option_map Py.lower name with
              | Some n => if negb (Py.truthy n) then Ok true else LOE.filter (Py.lower n)
              | None => Ok true
              end =
              match name with
              | Some n => if negb (Py.truthy n) then Ok true else LOE.filter (Py.lower n)
              | None => Ok true
              end).
  { destruct name as [n|]; cbn [option_map]; [|reflexivity].
    now rewrite truthy_lower, lower_idempotent. }
  rewrite E.
  destruct (match name with
            | Some n => if negb (Py.truthy n) then Ok true else LOE.filter (Py.lower n)
            | None => Ok true
            end) as [keep|e]; cbn [Py.bind]; [|reflexivity].
  destruct (LOE.kept_items sections) as [items|e]; cbn [Py.bind]; [|reflexivity].
  destruct keep; reflexivity.
Qed.

(** X12.  [label] does not see the case of the names and texts and never
    reads the third component of a section: the label of the sections is
    the label of the sections with lower-cased names and texts and no
    third component. *)
Theorem label_ignores_case (sections : list LOE.section) :
  LOE.label V (map normalise sections) = LOE.label V sections.
Proof.
  apply label_depends_on.
  - unfold LOE.title_text. rewrite title_items_normalise. apply normalised_join_lower.
  - apply accept_normalise.
  - unfold LOE.full_text. rewrite kept_items_normalise.
    destruct (LOE.kept_items sections) as [items|e]; cbn [Py.bind]; [|reflexivity].
    apply normalised_join_lower.
Qed.

End Sections.

(* ===================================================================== *)
(** * The evidence behind a label *)
(* ===================================================================== *)

Section Evidence.

Variable V : Vocab.

Lemma score_all_nth (cats : list (string * Z)) (text : string)
    (raw : list (Z * option string * Z)) (i : nat) count kw minimum :
  LOE.score_all cats text = Ok raw ->
  nth_error raw i = Some (count, kw, minimum) ->
  exists pat, nth_error cats i = Some (pat, minimum) /\
              LOE.matches (Some pat) text = Ok (count, kw).
Proof.
  revert raw i; induction cats as [|[p m] cats IH]; intros raw i; cbn [LOE.score_all].
  - intros [= <-]. destruct i; discriminate.
  - destruct (LOE.matches (Some p) text) as [[c k]|e] eqn:Em; cbn [Py.bind]; [|discriminate].
    destruct (LOE.score_all cats text) as [tail|e]; cbn [Py.bind]; [|discriminate].
    intros [= <-]. destruct i as [|i]; cbn [nth_error].
    + intros [= <- <- <-]. now exists p.
    + intros H. exact (IH tail i eq_refl H).
Qed.

(** A level other than 0 from the scoring of a text is backed by the
    category of that level. *)
Lemma score_evidence (text : string) (level : Z) (kw : option string) :
  LOE.score V text = Ok (level, kw) -> level <> 0 ->
  exists pat minimum count,
    nth_error (LOE.CATEGORIES V) (Z.to_nat (9 - level)) = Some (pat, minimum) /\
    LOE.matches (Some pat) text = Ok (count, kw) /\
    1 <= count /\ minimum <= count.
Proof.
  intros Hs Hnz. unfold LOE.score in Hs.
  destruct (Py.truthy text); [|injection Hs as <- _; congruence].
  destruct (score_categories V text) as (raw & Hraw & Hlen & Hwf).
  rewrite Hraw in Hs. cbn [Py.bind] in Hs.
  destruct (top_spec (map LOE.gate raw)) as (best & _ & _ & H0 & H1).
  { destruct raw; [discriminate | cbn; congruence]. }
  destruct (Z.eq_dec best 0) as [E|E].
  { rewrite (H0 E) in Hs. injection Hs as <- _. congruence. }
  destruct (H1 E) as (i & kw' & Hnth & _ & Ht). rewrite Ht in Hs.
  assert (Hl : level = Py.len (map LOE.gate raw) - Z.of_nat i) by congruence.
  assert (Hk : kw = kw') by congruence. subst kw'.
  assert (Hi : (i < 9)%nat).
  { rewrite <- Hlen, <- (length_map LOE.gate raw). apply nth_error_Some. congruence. }
  unfold Py.len in Hl. rewrite length_map, Hlen in Hl.
  replace (Z.to_nat (9 - level)) with i by lia.
  rewrite nth_error_map in Hnth.
  destruct (nth_error raw i) as [[[c k] m]|] eqn:En; [|discriminate].
  cbn [option_map LOE.gate] in Hnth.
  destruct (Z.geb_spec c m) as [Hge|Hlt]; [|congruence].
  injection Hnth as -> ->.
  destruct (score_all_nth _ _ _ _ _ _ _ Hraw En) as (pat & Hcat & Hm).
  exists pat, m, best. split; [exact Hcat|]. split; [exact Hm|]. split; [|lia].
  destruct (matches_cases _ _ _ _ Hm) as [[Hz _]|[Hpos _]]; [congruence | lia].
Qed.

(** X13.  Every label other than 0 is backed by a match.  When [label]
    returns a level that is not 0, either the title pattern of that level
    has a match in the title text, or the gate is open and the category
    of that level, at index [9 - level], has at least its minimum of
    matches in the full text; the keywords returned are those of that
    match. *)
Theorem label_has_evidence (sections : list LOE.section) (level : Z) (kw : option string) :
  LOE.label V sections = Ok (level, kw) ->
  level <> 0 ->
  (exists title pat count,
      LOE.title_text sections = Ok title /\
      In (pat, level) LOE.TITLE_REGEX /\
      LOE.matches (Some pat) title = Ok (count, kw) /\
      1 <= count) \/
  (LOE.accept sections = true /\
   exists text pat minimum count,
     LOE.full_text sections = Ok text /\
     nth_error (LOE.CATEGORIES V) (Z.to_nat (9 - level)) = Some (pat, minimum) /\
     LOE.matches (Some pat) text = Ok (count, kw) /\
     1 <= count /\ minimum <= count).
Proof.
  intros Hl Hnz. unfold LOE.label in Hl.
  destruct (LOE.title_text sections) as [title|e]; cbn [Py.bind] in Hl; [|discriminate].
  destruct (title_stage_cases LOE.TITLE_REGEX title compile_title_regex)
    as [(pat & loe & c & k & Hin & Hm & Hpos & Hs)|[_ Hs]];
    rewrite Hs in Hl; cbn [Py.bind] in Hl.
  - left. injection Hl as <- <-. exists title, pat, c. repeat split; auto. lia.
  - right. unfold LOE.full_text_stage in Hl.
    destruct (LOE.accept sections); [|cbn in Hl; congruence].
    split; [reflexivity|].
    destruct (LOE.full_text sections) as [text|e]; cbn [Py.bind] in Hl; [|discriminate].
    destruct (LOE.score V text) as [[lv k]|e] eqn:Es; cbn [Py.bind] in Hl; [|discriminate].
    rewrite fallback_returns_label in Hl. injection Hl as -> ->.
    destruct (score_evidence text level kw Es Hnz) as (pat & m & c & H1 & H2 & H3 & H4).
    exists text, pat, m, c. auto.
Qed.

End Evidence.

Section LineBreaks.

Variable V : Vocab.

Lemma replace_newlines_idempotent (s : string) :
  Py.replace_newlines (Py.replace_newlines s) = Py.replace_newlines s.
Proof.
  unfold Py.replace_newlines. rewrite map_chars_compose. apply map_chars_ext.
  intros c. destruct (Ascii.eqb_spec c Py.newline); [reflexivity|].
  destruct (Ascii.eqb_spec c Py.newline); [contradiction | reflexivity].
Qed.

Lemma join_replace_newlines (items : list string) :
  Py.join " " (map Py.replace_newlines items) = Py.replace_newlines (Py.join " " items).
Proof.
  unfold Py.join. induction items as [|s items IH]; [reflexivity|].
  cbn [map String.concat]. destruct items as [|s' items]; [reflexivity|].
  cbn [map] in *. rewrite IH. unfold Py.replace_newlines. now rewrite !map_chars_append.
Qed.

Lemma all_str_map (f : string -> string) (items : list (option string)) :
  Py.all_str (map (option_map f) items) = option_map (map f) (Py.all_str items).
Proof.
  induction items as [|[s|] items IH]; cbn [map option_map Py.all_str]; [reflexivity| |reflexivity].
  rewrite IH. destruct (Py.all_str items); reflexivity.
Qed.

Lemma normalised_join_one_line (items : list (option string)) :
  (joined <- Py.join_opt " " (map (option_map Py.replace_newlines) items) ;;
   Ok (Py.lower (Py.replace_newlines joined))) =
  (joined <- Py.join_opt " " items ;; Ok (Py.lower (Py.replace_newlines joined))).
Proof.
  unfold Py.join_opt. rewrite all_str_map.
  destruct (Py.all_str items) as [l|]; cbn [option_map Py.bind]; [|reflexivity].
  now rewrite join_replace_newlines, replace_newlines_idempotent.
Qed.

(** A token without line feed and without space is found in a text with
    its line feeds replaced exactly when it is found in the text. *)
Lemma prefix_one_line (token s : string) :
  (forall a c b, token = a ++ String c b -> c <> Py.newline /\ c <> " "%char) ->
  String.prefix token (Py.lower (Py.replace_newlines s)) = String.prefix token (Py.lower s).
Proof.
  revert s; induction token as [|t token IH]; intros s Ht.
  - destruct s; reflexivity.
  - destruct s as [|c s]; [reflexivity|].
    change (Py.lower (Py.replace_newlines (String c s)))
      with (String (Py.lower_char (if (c =? Py.newline)%char then " "%char else c))
                   (Py.lower (Py.replace_newlines s))).
    change (Py.lower (String c s)) with (String (Py.lower_char c) (Py.lower s)).
    cbn [String.prefix].
    destruct (Ht "" t token eq_refl) as [Hnl Hsp].
    rewrite IH by (intros a d b ->; apply (Ht (String t a) d b); reflexivity).
    destruct (Ascii.eqb_spec c Py.newline) as [->|Hc]; [|reflexivity].
    change (Py.lower_char " ") with " "%char.
    change (Py.lower_char Py.newline) with Py.newline.
    destruct (ascii_dec t " ") as [E|E]; [congruence|].
    destruct (ascii_dec t Py.newline) as [E'|E']; [congruence|].
    reflexivity.
Qed.

Lemma contains_one_line (token s : string) :
  (forall a c b, token = a ++ String c b -> c <> Py.newline /\ c <> " "%char) ->
  Py.contains token (Py.lower (Py.replace_newlines s)) = Py.contains token (Py.lower s).
Proof.
  intros Ht. induction s as [|c s IH].
  - reflexivity.
  - change (Py.contains token (Py.lower (Py.replace_newlines (String c s))))
      with (String.prefix token (Py.lower (Py.replace_newlines (String c s))) ||
            Py.contains token (Py.lower (Py.replace_newlines s))).
    change (Py.contains token (Py.lower (String c s)))
      with (String.prefix token (Py.lower (String c s)) || Py.contains token (Py.lower s)).
    now rewrite IH, prefix_one_line.
Qed.

Lemma truthy_replace_newlines (s : string) : Py.truthy (Py.replace_newlines s) = Py.truthy s.
Proof. destruct s; reflexivity. Qed.

Lemma gate_token_chars (token : string) :
  token = "method" \/ token = "result" ->
  forall a c b, token = a ++ String c b -> c <> Py.newline /\ c <> " "%char.
Proof.
  intros [-> | ->] a c b H;
    do 6 (destruct a as [|? a]; cbn [append] in H;
          [injection H as <- _; split; discriminate | injection H as _ H]);
    destruct a; discriminate.
Qed.

Lemma find_one_line (name text x : option string) (token : string) :
  token = "method" \/ token = "result" ->
  LOE.find (name, option_map Py.replace_newlines text, x) token =
  LOE.find (name, text, x) token.
Proof.
  intros Ht. unfold LOE.find. f_equal. destruct text as [t|]; cbn [option_map]; [|reflexivity].
  rewrite truthy_replace_newlines. f_equal.
  apply contains_one_line, gate_token_chars, Ht.
Qed.

Lemma title_items_one_line (sections : list LOE.section) :
  LOE.title_items (map on_one_line sections) =
  map (option_map Py.replace_newlines) (LOE.title_items sections).
Proof.
  unfold LOE.title_items.
  induction sections as [|[[name text] x] sections IH]; [reflexivity|].
  cbn [map flat_map on_one_line]. rewrite IH, map_app. f_equal.
  destruct name as [n|]; [|reflexivity].
  destruct (Py.truthy n && (Py.lower n =? "title")%string); reflexivity.
Qed.

Lemma accept_one_line (sections : list LOE.section) :
  LOE.accept (map on_one_line sections) = LOE.accept sections.
Proof.
  unfold LOE.accept. induction sections as [|[[name text] x] sections IH]; [reflexivity|].
  cbn [map existsb on_one_line]. rewrite IH.
  rewrite !find_one_line by auto. reflexivity.
Qed.

Lemma kept_items_one_line (sections : list LOE.section) :
  LOE.kept_items (map on_one_line sections) =
  (items <- LOE.kept_items sections ;; Ok (map (option_map Py.replace_newlines) items)).
Proof.
  induction sections as [|[[name text] x] sections IH]; [reflexivity|].
  cbn [map on_one_line LOE.kept_items]. rewrite IH.
  destruct (match name with
            | Some n => if negb (Py.truthy n) then Ok true else LOE.filter (Py.lower n)
            | None => Ok true
            end) as [keep|e]; cbn [Py.bind]; [|reflexivity].
  destruct (LOE.kept_items sections) as [items|e]; cbn [Py.bind]; [|reflexivity].
  destruct keep; reflexivity.
Qed.

(** X14.  In the texts a line feed counts as a space: the label of the
    sections is the label of the sections whose texts have every line
    feed replaced by a space, so a phrase broken over two lines is found
    like the phrase on one line. *)
Theorem label_ignores_line_breaks (sections : list LOE.section) :
  LOE.label V (map on_one_line sections) = LOE.label V sections.
Proof.
  apply label_depends_on.
  - unfold LOE.title_text. rewrite title_items_one_line. apply normalised_join_one_line.
  - apply accept_one_line.
  - unfold LOE.full_text. rewrite kept_items_one_line.
    destruct (LOE.kept_items sections) as [items|e]; cbn [Py.bind]; [|reflexivity].
    apply normalised_join_one_line.
Qed.


End LineBreaks.

(* ===================================================================== *)
(** * The title patterns with an optional hyphen *)
(* ===================================================================== *)

Section HyphenPatterns.







End HyphenPatterns.

(* ===================================================================== *)
(** * Worked examples of the further properties *)
(* ===================================================================== *)

Section FurtherExamples.

(** "cohorts" is not reported; what is reported is a term. *)
Lemma regex_finds_only_terms_witness :
  let terms := ["Cohort"; "case control"] in
  let text := "a cohort of case control cohorts" in
  terms <> [] /\
  Re.findall_overlapped (regex terms) text = Ok ["cohort"; "case control"] /\
  exists term, In term terms /\ "cohort" = Py.lower term /\ occurs "cohort" text.
Proof.
  intros terms text. assert (Hne : terms <> []) by discriminate.
  split; [exact Hne|]. split; [reflexivity|].
  apply (regex_finds_only_terms terms text ["cohort"; "case control"] Hne eq_refl).
  now left.
Defined.



Lemma accept_monotone_witness :
  let methods : LOE.section := (Some "Methods", Some "see below", None) in
  let abstract : LOE.section := (Some "Abstract", Some "a summary", None) in
  LOE.accept [methods] = true /\ LOE.accept [abstract; methods] = true.
Proof.
  intros methods abstract. split; [reflexivity|].
  apply (proj1 (accept_monotone [methods] [abstract; methods])); [|reflexivity].
  intros s [<-|[]]. right. now left.
Defined.

Lemma searched_text_is_normal_witness :
  let sections : list LOE.section :=
    [(Some "TITLE", Some ("Two" ++ String Py.newline "Lines"), None)] in
  LOE.title_text sections = Ok "two lines" /\ normal_text "two lines".
Proof.
  intros sections. split; [reflexivity|].
  apply (searched_text_is_normal sections "two lines"). left. reflexivity.
Defined.

(** The references, here without text, change nothing. *)
Lemma filtered_section_is_ignored_witness :
  let abstract : LOE.section :=
    (Some "Abstract", Some "Methods: we built a computer model", None) in
  LOE.filter (Py.lower "References") = Ok false /\
  LOE.label sample_vocab ([abstract] ++ [(Some "References", None, None)]) =
  LOE.label sample_vocab ([abstract] ++ []) /\
  LOE.label sample_vocab ([abstract] ++ []) = Ok (9, Some "'computer model': 1").
Proof.
  intros abstract. split; [reflexivity|]. split; [|reflexivity].
  apply (filtered_section_is_ignored sample_vocab [abstract] [] "References" None None).
  - discriminate.
  - discriminate.
  - reflexivity.
  - intros H. apply find_true in H; discriminate.
  - intros H. apply find_true in H; discriminate.
Defined.

Lemma label_has_evidence_witness :
  let sections : list LOE.section :=
    [(Some "Abstract", Some "Methods: we built a computer model", None)] in
  LOE.label sample_vocab sections = Ok (9, Some "'computer model': 1") /\
  LOE.accept sections = true.
Proof.
  intros sections. split; [reflexivity|].
  destruct (label_has_evidence sample_vocab sections 9 (Some "'computer model': 1") eq_refl)
    as [(title & pat & count & _ & Hin & _)|[Hacc _]].
  - discriminate.
  - exfalso. repeat (destruct Hin as [Heq|Hin]; [discriminate Heq|]). destruct Hin.
  - exact Hacc.
Defined.


End FurtherExamples.
